(** * Oracle dialect client (src/dialects/oracle/index.js)

    A shallow embedding of the Oracle client of the query builder: the
    placeholder rewriter [positionBindings], the binding translator
    [prepBindings], the error classifier [isConnectionError], the executor
    [_query], its streaming variant [_stream] and the response normaliser
    [processResponse], followed by the properties the specification states
    about them.

    Conventions of the embedding.
    - JavaScript values are the inductive [value]; numbers are the integers
      the client handles (counters, update counts, 0 and 1), as [Z].
    - Strings are [string]; the only character the client inspects is the
      question mark, a single code unit in every encoding of the text.
    - Objects are association lists in enumeration order.
    - A promise is its settlement, [Fulfilled] or [Rejected]; the mutable
      connection and descriptor are threaded through as explicit state. *)

From Stdlib Require Import List String Ascii ZArith Bool Lia Arith.
From Stdlib Require Import Decimal DecimalString DecimalNat.
Import ListNotations.

Set Warnings "-register-all".

Local Open Scope string_scope.
Local Open Scope list_scope.

(** ** JavaScript values *)

Inductive value : Type :=
| VUndefined
| VNull
| VBool (b : bool)
| VNum (n : Z)
| VStr (s : string)
| VArr (items : list value)
| VObj (fields : list (string * value))
| VBuffer (bytes : list Byte.byte)
| VReturningHelper (columnName : string)
| VOutParam (kind : Z).

(** An [Error] object: what the client reads of it is [message]. *)
Record JsError : Type := mkError { name : string; message : string }.

Definition Error (msg : string) : JsError := mkError "Error" msg.
Definition TypeError (msg : string) : JsError := mkError "TypeError" msg.

(** ToBoolean. *)
Definition truthy (v : value) : bool :=
  match v with
  | VUndefined | VNull => false
  | VBool b => b
  | VNum n => negb (Z.eqb n 0)
  | VStr s => negb (String.eqb s "")
  | _ => true
  end.

Definition nullish (v : value) : bool :=
  match v with
  | VUndefined | VNull => true
  | _ => false
  end.

(** The text of a counter inside a template literal. *)
Definition decimal (n : nat) : string :=
  NilEmpty.string_of_uint (Nat.to_uint n).

Fixpoint lookup (k : string) (fields : list (string * value)) : option value :=
  match fields with
  | [] => None
  | (k', v) :: rest => if String.eqb k k' then Some v else lookup k rest
  end.

Definition describe (v : value) : string :=
  match v with
  | VNull => "null"
  | _ => "undefined"
  end.

(** [base[key]] for a key that is neither an index nor [length]: the own
    property of an object, [undefined] on every other non-nullish base, and
    a TypeError (here [inl]) on [null] and [undefined]. *)
Definition get (base : value) (key : string) : JsError + value :=
  match base with
  | VUndefined | VNull =>
      inl (TypeError ("Cannot read property '" ++ key ++ "' of " ++ describe base))
  | VObj fields =>
      inr (match lookup key fields with Some v => v | None => VUndefined end)
  | _ => inr VUndefined
  end.

(** The one-character strings of a text (what lodash iterates over). *)
Fixpoint chars (s : string) : list value :=
  match s with
  | EmptyString => []
  | String c rest => VStr (String c EmptyString) :: chars rest
  end.

(** [base[0]]. *)
Definition get0 (base : value) : JsError + value :=
  match base with
  | VUndefined | VNull =>
      inl (TypeError ("Cannot read property '0' of " ++ describe base))
  | VArr items => inr (nth 0 items VUndefined)
  | VStr s => inr (nth 0 (chars s) VUndefined)
  | VObj fields =>
      inr (match lookup "0" fields with Some v => v | None => VUndefined end)
  | _ => inr VUndefined
  end.

(** ** lodash: [map], [values], [flatten] *)

(** [object[key]] for an own key of an object. *)
Definition own (key : string) (fields : list (string * value)) : value :=
  match lookup key fields with
  | Some v => v
  | None => VUndefined
  end.

Definition byte_value (b : Byte.byte) : value := VNum (Z.of_N (Byte.to_N b)).

(** lodash's [isLength]: a number that can be the length of an array. *)
Definition array_length (v : value) : option nat :=
  match v with
  | VNum n =>
      if (0 <=? n)%Z && (n <=? 9007199254740991)%Z then Some (Z.to_nat n)
      else None
  | _ => None
  end.

(** The own enumerable property values of a value, in enumeration order:
    what lodash's [values] collects.  A returning helper holds its
    [columnName]; an output parameter is taken to hold nothing
    enumerable. *)
Definition own_values (object : value) : list value :=
  match object with
  | VArr items => items
  | VObj fields => List.map snd fields
  | VStr s => chars s
  | VBuffer bytes => List.map byte_value bytes
  | VReturningHelper columnName => [VStr columnName]
  | _ => []
  end.

(** What lodash's [map] hands to its iteratee, in order: the elements of
    an array, the characters of a string, the entries [0 .. length-1] of
    an object with a valid [length] (array-like), the own values of any
    other object, nothing for a primitive, [null] or [undefined]. *)
Definition iterated (collection : value) : list value :=
  match collection with
  | VObj fields =>
      match array_length (own "length" fields) with
      | Some n => List.map (fun i => own (decimal i) fields) (seq 0 n)
      | None => List.map snd fields
      end
  | _ => own_values collection
  end.

(** [map(collection, iteratee)]: always a new array. *)
Definition lodash_map (collection : value) (iteratee : value -> value)
  : list value :=
  List.map iteratee (iterated collection).

Definition values (object : value) : value := VArr (own_values object).

(** The iteratee lodash builds from a column name, on a row that is an
    object holding the column as an own property, and on a row that is
    [null] or [undefined]; paths into nested objects and inherited
    properties are outside of what this definition describes. *)
Definition property (key : string) (row : value) : value :=
  match row with
  | VObj fields => own key fields
  | _ => VUndefined
  end.

(** [flatten(array)] removes one level of nesting. *)
Fixpoint flatten (array : list value) : list value :=
  match array with
  | [] => []
  | VArr inner :: rest => inner ++ flatten rest
  | v :: rest => v :: flatten rest
  end.

(** ** Error classification *)

(** If the error is any of these, the connection is assumed failed. *)
Definition connectionErrors : list string :=
  [ "ORA-03114"; "ORA-03113"; "ORA-03135"; "ORA-12514"; "ORA-22"; "ORA-28";
    "ORA-31"; "ORA-45"; "ORA-378"; "ORA-602"; "ORA-603"; "ORA-609";
    "ORA-1012"; "ORA-1041"; "ORA-1043"; "ORA-1089"; "ORA-1092"; "ORA-2396";
    "ORA-3122"; "ORA-12153"; "ORA-12537"; "ORA-12547"; "ORA-12570";
    "ORA-12583"; "ORA-27146"; "ORA-28511"; "ORA-56600";
    "NJS-040"; "NJS-024"; "NJS-003" ].

(** [text.indexOf(pattern)]: the first offset at which [pattern] occurs. *)
Definition indexOf (text pattern : string) : option nat :=
  String.index 0 pattern text.

Definition index_is_zero (i : option nat) : bool :=
  match i with
  | Some 0 => true
  | _ => false
  end.

Definition isConnectionError (err : JsError) : bool :=
  existsb (fun prefix => index_is_zero (indexOf (message err) prefix))
          connectionErrors.

(** What a promise is rejected with, or an 'error' event carries: an
    [Error] with its string message, or an object [{ code }] that has no
    [message] at all. *)
Inductive Reason : Type :=
| Err (e : JsError)
| Coded (code : value).

Coercion Err : JsError >-> Reason.

(** The call [isConnectionError(err)] as the handlers make it, on whatever
    they were handed: [err.message] of an object without a message is
    [undefined], and calling [indexOf] on it throws. *)
Definition classify (err : Reason) : JsError + bool :=
  match err with
  | Err e => inr (isConnectionError e)
  | Coded _ => inl (TypeError "Cannot read property 'indexOf' of undefined")
  end.

(** ** Placeholder rewriting *)

Definition question : ascii := "?"%char.

(** [sql.replace(/\?/g, callback)] with the callback's counter made an
    argument: every match bumps the counter and is replaced by a colon and
    the counter's decimal text. *)
Fixpoint replace_questions (questionCount : nat) (sql : string) : string :=
  match sql with
  | EmptyString => EmptyString
  | String c rest =>
      if Ascii.eqb c question then
        let questionCount := S questionCount in
        (":" ++ decimal questionCount) ++ replace_questions questionCount rest
      else String c (replace_questions questionCount rest)
  end.

Definition positionBindings (sql : string) : string :=
  replace_questions 0 sql.

(** ** Binding translation *)

(** The driver module as far as the client uses it: the constant it passes
    to [OutParam]. *)
Record Driver : Type := mkDriver { OCCISTRING : Z }.

Section Bindings.

(** [bufferToString] of query/string: the text a buffer is written as. *)
Variable bufferToString : list Byte.byte -> string.

(** [this.driver], absent until the client is initialised. *)
Variable driver : option Driver.

Definition prepBinding (v : value) : value :=
  match v, driver with
  | VReturningHelper _, Some d => VOutParam (OCCISTRING d)
  | VBool b, _ => VNum (if b then 1 else 0)
  | VBuffer bytes, _ => VStr (bufferToString bytes)
  | _, _ => v
  end.

Definition prepBindings (bindings : list value) : list value :=
  List.map prepBinding bindings.

End Bindings.

(** ** Query descriptors, connections and promises *)

(** The compiled query the runner hands to the client.  [returning] and
    [outParams] are arrays when present; [output] is the optional custom
    transform, called with the runner as [this]: it returns a value or
    throws. *)
Record QueryDescriptor : Type := mkQuery {
  sql : value;
  bindings : value;
  method : string;
  returning : option (list value);
  outParams : option (list value);
  returningSql : value;
  pluck : option string;
  output : option (value -> value -> JsError + value);
  response : value;
  rowsAffected : value
}.

Definition set_response (r : value) (o : QueryDescriptor) : QueryDescriptor :=
  mkQuery (sql o) (bindings o) (method o) (returning o) (outParams o)
          (returningSql o) (pluck o) (output o) r (rowsAffected o).

Definition set_rowsAffected (n : value) (o : QueryDescriptor) : QueryDescriptor :=
  mkQuery (sql o) (bindings o) (method o) (returning o) (outParams o)
          (returningSql o) (pluck o) (output o) (response o) n.

Inductive Settled (A : Type) : Type :=
| Fulfilled (a : A)
| Rejected (err : Reason).
Arguments Fulfilled {A} a.
Arguments Rejected {A} err.

(** The name of the [i]-th output slot: [`returnParam${i ? i : ''}`]. *)
Definition returnParam (i : nat) : string :=
  "returnParam" ++ match i with 0 => "" | _ => decimal i end.

(** [outParams.map((v, i) => response[returnParam i])], from index [i]. *)
Fixpoint read_slots (response : value) (i : nat) (outParams : list value)
  : JsError + list value :=
  match outParams with
  | [] => inr []
  | _ :: rest =>
      match get response (returnParam i) with
      | inl err => inl err
      | inr rowId =>
          match read_slots response (S i) rest with
          | inl err => inl err
          | inr rowIds => inr (rowId :: rowIds)
          end
      end
  end.

Section Executor.

(** The driver session behind a connection, and its promisified
    [execute]: a statement and its bindings settle to a response or an
    error and move the session on. *)
Variable Session : Type.
Variable executeAsync : Session -> value -> value -> Settled value * Session.

(** A pooled connection: the driver session, the [__knex__disposed]
    marker the pool inspects, and the log of the [executeAsync] calls
    made on it (sql, bindings), oldest first. *)
Record Connection : Type := mkConnection {
  session : Session;
  __knex__disposed : option Reason;
  executed : list (value * value)
}.

(** The objects a call to [_query] shares with its callbacks. *)
Record World : Type := mkWorld {
  connection : Connection;
  obj : QueryDescriptor
}.

Definition Promise (A : Type) : Type := World -> Settled A * World.

Definition resolve {A} (a : A) : Promise A := fun w => (Fulfilled a, w).

Definition reject {A} (err : Reason) : Promise A := fun w => (Rejected err, w).

Definition then_ {A B} (p : Promise A) (onFulfilled : A -> Promise B)
  : Promise B :=
  fun w =>
    match p w with
    | (Fulfilled a, w') => onFulfilled a w'
    | (Rejected err, w') => (Rejected err, w')
    end.

Definition catch_ {A} (p : Promise A) (onRejected : Reason -> Promise A)
  : Promise A :=
  fun w =>
    match p w with
    | (Fulfilled a, w') => (Fulfilled a, w')
    | (Rejected err, w') => onRejected err w'
    end.

(** [connection.executeAsync(sql, bindings)]. *)
Definition connection_executeAsync (statement params : value) : Promise value :=
  fun w =>
    let c := connection w in
    let (settled, session') := executeAsync (session c) statement params in
    (settled,
     mkWorld (mkConnection session' (__knex__disposed c)
                           (executed c ++ [(statement, params)]))
             (obj w)).

(** [connection.__knex__disposed = err]. *)
Definition dispose (err : Reason) (c : Connection) : Connection :=
  mkConnection (session c) (Some err) (executed c).

(** The connection once a handler has run
    [if (isConnectionError(err)) connection.__knex__disposed = err]: it is
    marked when the classification answers true, and left alone when it
    answers false or throws. *)
Definition mark_if_fatal (err : Reason) (c : Connection) : Connection :=
  match classify err with
  | inr true => dispose err c
  | _ => c
  end.

(** What that handler goes on with: the error it was handed, or the
    TypeError its classification threw. *)
Definition rethrown (err : Reason) : Reason :=
  match classify err with
  | inl thrown => Err thrown
  | inr _ => err
  end.

(** First [then] of [_query]. *)
Definition fetch_returning (response : value) : Promise value :=
  fun w =>
    match returning (obj w) with
    | None => resolve response w
    | Some _ =>
        match outParams (obj w) with
        | None => reject (TypeError "Cannot read property 'map' of undefined") w
        | Some params =>
            match read_slots response 0 params with
            | inl err => reject err w
            | inr rowIds =>
                connection_executeAsync (returningSql (obj w)) (VArr rowIds) w
            end
        end
    end.

(** Second [then] of [_query]. *)
Definition finalize (response : value) : Promise QueryDescriptor :=
  fun w =>
    let w1 := mkWorld (connection w) (set_response response (obj w)) in
    match get response "updateCount" with
    | inl err => reject err w1
    | inr count =>
        let w2 := mkWorld (connection w1) (set_rowsAffected count (obj w1)) in
        resolve (obj w2) w2
    end.

(** The [catch] of [_query]. *)
Definition classify_and_rethrow {A} (err : Reason) : Promise A :=
  fun w =>
    match classify err with
    | inl thrown => reject thrown w
    | inr fatal =>
        reject err
               (mkWorld (if fatal then dispose err (connection w)
                         else connection w)
                        (obj w))
    end.

(** What a call of [_query] comes to: a synchronous throw, or the promise
    it returns, settled. *)
Inductive Outcome : Type :=
| Threw (err : JsError)
| Returned (promise : Settled QueryDescriptor).

(** The chain of [_query] in front of its [catch]. *)
Definition round_trips (o : QueryDescriptor) : Promise QueryDescriptor :=
  then_ (then_ (connection_executeAsync (sql o) (bindings o))
               fetch_returning)
        finalize.

(** Runs the query on the specified connection. *)
Definition _query (c : Connection) (o : QueryDescriptor) : Outcome * World :=
  let w := mkWorld c o in
  if negb (truthy (sql o)) then (Threw (Error "The query is empty"), w)
  else
    let (settled, w') := catch_ (round_trips o) classify_and_rethrow w in
    (Returned settled, w').

End Executor.

Arguments mkConnection {Session} _ _ _.
Arguments session {Session} _.
Arguments __knex__disposed {Session} _.
Arguments executed {Session} _.
Arguments mkWorld {Session} _ _.
Arguments connection {Session} _.
Arguments obj {Session} _.
Arguments dispose {Session} _ _.
Arguments mark_if_fatal {Session} _ _.
Arguments round_trips {Session} _ _ _.
Arguments _query {Session} _ _ _.

(** ** Streaming *)

(** What can happen once [_stream] has wired the sink and the driver's
    result stream together. *)
Inductive StreamEvent : Type :=
| SinkError (err : Reason)
| SinkEnd
| QueryStreamError (error : Reason).

Section Streaming.

Variable Session : Type.

(** The promise [_stream] returns ([None] while pending), the connection
    its handlers close over, the arguments [queryStream] was opened with,
    and the error events the client itself emitted on the sink. *)
Record StreamState : Type := mkStream {
  promise : option (Settled unit);
  stream_connection : Connection Session;
  queryStream : value * value * value;
  sink_emitted : list Reason
}.

(** A promise settles once: later calls of its resolver or rejecter are
    ignored. *)
Definition settle (s : Settled unit) (st : StreamState) : StreamState :=
  match promise st with
  | None => mkStream (Some s) (stream_connection st) (queryStream st)
                     (sink_emitted st)
  | Some _ => st
  end.

Definition resolver : StreamState -> StreamState := settle (Fulfilled tt).

Definition rejecter (err : Reason) : StreamState -> StreamState :=
  settle (Rejected err).

(** [stream.on('error', ...)]: the listener classifies first, so when the
    classification throws it never reaches [rejecter]; what it throws goes
    to whoever emitted the event. *)
Definition on_stream_error (err : Reason) (st : StreamState) : StreamState :=
  match classify err with
  | inl thrown => st
  | inr fatal =>
      rejecter err
        (mkStream (promise st)
                  (if fatal then dispose err (stream_connection st)
                   else stream_connection st)
                  (queryStream st) (sink_emitted st))
  end.

(** [stream.emit('error', error)]: observers see the event, and so does
    the listener installed above. *)
Definition stream_emit_error (error : Reason) (st : StreamState) : StreamState :=
  on_stream_error error
    (mkStream (promise st) (stream_connection st) (queryStream st)
              (sink_emitted st ++ [error])).

(** [queryStream.on('error', ...)]. *)
Definition on_queryStream_error (error : Reason) (st : StreamState)
  : StreamState :=
  stream_emit_error error (rejecter error st).

Definition deliver (st : StreamState) (ev : StreamEvent) : StreamState :=
  match ev with
  | SinkError err => on_stream_error err st
  | SinkEnd => resolver st
  | QueryStreamError error => on_queryStream_error error st
  end.

(** The state [_stream] leaves behind when it returns its promise, once
    [connection.queryStream] has handed over the result stream. *)
Definition _stream (c : Connection Session) (o : QueryDescriptor)
           (options : value) : StreamState :=
  mkStream None c (sql o, bindings o, options) [].

(** The state [_stream] leaves behind when [connection.queryStream] throws
    instead: the promise is rejected with what was thrown, unclassified;
    the sink's listeners are installed but there is no result stream, so
    only events of the sink can follow. *)
Definition _stream_unopened (thrown : Reason) (c : Connection Session)
           (o : QueryDescriptor) (options : value) : StreamState :=
  mkStream (Some (Rejected thrown)) c (sql o, bindings o, options) [].

Definition after (events : list StreamEvent) (st : StreamState) : StreamState :=
  fold_left deliver events st.

End Streaming.

Arguments mkStream {Session} _ _ _ _.
Arguments promise {Session} _.
Arguments stream_connection {Session} _.
Arguments queryStream {Session} _.
Arguments sink_emitted {Session} _.
Arguments deliver {Session} _ _.
Arguments _stream {Session} _ _ _.
Arguments _stream_unopened {Session} _ _ _ _.
Arguments after {Session} _ _.


(** ** Response normalisation *)

Definition one_of (m : string) (cases : list string) : bool :=
  existsb (String.eqb m) cases.

(** [v === text]. *)
Definition is_string (text : string) (v : value) : bool :=
  match v with
  | VStr s => String.eqb s text
  | _ => false
  end.

(** The iteratee lodash derives from [obj.pluck]. *)
Definition iteratee (column : option string) : value -> value :=
  match column with
  | Some key => property key
  | None => fun row => row
  end.

(** Process the response as returned from the query. *)
Definition processResponse (o : QueryDescriptor) (runner : value)
  : JsError + value :=
  let response := response o in
  match output o with
  | Some transform => transform runner response
  | None =>
      if one_of (method o) ["select"; "pluck"; "first"] then
        let response :=
          if String.eqb (method o) "pluck"
          then VArr (lodash_map response (iteratee (pluck o)))
          else response in
        if String.eqb (method o) "first" then get0 response else inr response
      else if one_of (method o) ["insert"; "del"; "update"; "counter"] then
        match returning o with
        | Some columns =>
            if (1 <? List.length columns)%nat
               || is_string "*" (nth 0 columns VUndefined)
            then inr response
            else inr (VArr (flatten (lodash_map response values)))
        | None => inr (rowsAffected o)
        end
      else inr response
  end.

(** ** The specification's vocabulary *)

(** How many question marks a text holds. *)
Fixpoint occurrences (sql : string) : nat :=
  match sql with
  | EmptyString => 0
  | String c rest =>
      (if Ascii.eqb c question then 1 else 0) + occurrences rest
  end.

(** The pieces of a text between its question marks, left to right. *)
Fixpoint segments (sql : string) : list string :=
  match sql with
  | EmptyString => [EmptyString]
  | String c rest =>
      if Ascii.eqb c question then EmptyString :: segments rest
      else match segments rest with
           | [] => [String c EmptyString]
           | piece :: pieces => String c piece :: pieces
           end
  end.

(** The pieces put back together with [marker i] between piece [i] and the
    next one, counting from [i]. *)
Fixpoint interleave (marker : nat -> string) (i : nat) (pieces : list string)
  : string :=
  match pieces with
  | [] => EmptyString
  | piece :: rest =>
      match rest with
      | [] => piece
      | _ => (piece ++ marker i ++ interleave marker (S i) rest)%string
      end
  end.

Definition question_mark (i : nat) : string := "?".

(** The decimal digit of a number below ten. *)
Definition digit (d : nat) : ascii :=
  match d with
  | 0 => "0" | 1 => "1" | 2 => "2" | 3 => "3" | 4 => "4"
  | 5 => "5" | 6 => "6" | 7 => "7" | 8 => "8" | _ => "9"
  end%char.

(** The decimal numeral of a number: its last digit after the numeral of
    its tenth, without leading zero; [fuel] bounds the number of digits. *)
Fixpoint numeral_upto (fuel n : nat) : string :=
  match fuel with
  | 0 => EmptyString
  | S fuel' =>
      if (n <? 10)%nat then String (digit n) EmptyString
      else (numeral_upto fuel' (n / 10)%nat
            ++ String (digit (n mod 10)%nat) EmptyString)%string
  end.

Definition numeral (n : nat) : string := numeral_upto (S n) n.

(** The little-endian digits of [10 * q + r]. *)
Definition low_digit (r : nat) (d : uint) : uint :=
  match r with
  | 0 => D0 d | 1 => D1 d | 2 => D2 d | 3 => D3 d | 4 => D4 d
  | 5 => D5 d | 6 => D6 d | 7 => D7 d | 8 => D8 d | _ => D9 d
  end.

(** The marker [:i] of the [i]-th placeholder. *)
Definition numbered_marker (i : nat) : string := ":" ++ numeral i.

Definition positional_marker (i : nat) : string := ":" ++ decimal i.

(** A text starts with a prefix when the prefix sits at offset 0. *)
Definition starts_with (prefix text : string) : Prop :=
  exists rest, text = (prefix ++ rest)%string.

Definition cataloged (msg : string) : Prop :=
  exists prefix, In prefix connectionErrors /\ starts_with prefix msg.

(** The row identifiers of a first response, one per output parameter, read
    from the slots [name_of 0], [name_of 1], ... *)
Definition slot_values (name_of : nat -> string) (response : value)
           (outParams : list value) : list value :=
  List.map (fun i => property (name_of i) response)
           (seq 0 (List.length outParams)).

(** The slot names as the specification words them: no suffix for the
    first, then the suffixes 2, 3, ... *)
Definition slot_named_from_two (i : nat) : string :=
  "returnParam" ++ match i with 0 => "" | _ => decimal (S i) end.

(** The values of one column over the rows of a response. *)
Definition column_values (column : string) (response : value) : value :=
  VArr (lodash_map response (property column)).

(** Every property value of every row, row after row. *)
Definition all_values (rows : list (list (string * value))) : value :=
  VArr (flat_map (List.map snd) rows).




Definition failed (outcome : Outcome) : bool :=
  match outcome with
  | Threw _ | Returned (Rejected _) => true
  | Returned (Fulfilled _) => false
  end.

(** ** Sample drivers and descriptors *)

Definition plain_query (text : string) (params : list value) : QueryDescriptor :=
  mkQuery (VStr text) (VArr params) "raw" None None VUndefined None None
          VUndefined VUndefined.

Definition fresh (n : nat) : Connection nat := mkConnection n None [].

(** A session that counts the statements it ran and answers each with the
    same response. *)
Definition answering (r : value) (calls : nat) (statement params : value)
  : Settled value * nat :=
  (Fulfilled r, S calls).

(** A session on which every statement fails with the same error. *)
Definition failing (err : Reason) (calls : nat) (statement params : value)
  : Settled value * nat :=
  (Rejected err, S calls).

(** A session whose first statement succeeds and whose later ones fail. *)
Definition failing_after_first (r : value) (err : Reason) (calls : nat)
           (statement params : value) : Settled value * nat :=
  match calls with
  | 0 => (Fulfilled r, 1)
  | _ => (Rejected err, S calls)
  end.

(** A session whose first statement answers [r1] and later ones [r2]. *)
Definition answering_twice (r1 r2 : value) (calls : nat)
           (statement params : value) : Settled value * nat :=
  match calls with
  | 0 => (Fulfilled r1, 1)
  | _ => (Fulfilled r2, S calls)
  end.

Definition end_of_file : JsError :=
  Error "ORA-03113: end-of-file on communication channel".

Definition unique_violated : JsError :=
  Error "ORA-00001: unique constraint violated".

Definition select_one : QueryDescriptor := plain_query "select 1 from dual" [].

Definition update_one : QueryDescriptor :=
  plain_query "update t set a = :1" [VNum 1].

Definition three_updated : value := VObj [("updateCount", VNum 3)].

(** [update_one] once it has run against a session answering
    [three_updated]. *)
Definition updated_one : QueryDescriptor :=
  set_rowsAffected (VNum 3) (set_response three_updated update_one).

(** An insert of two rows that asks for their [id]: one output parameter
    per row, and the statement that reads the ids back by row identifier. *)
Definition insert_two : QueryDescriptor :=
  mkQuery (VStr "insert all into t (a) values (:1) into t (a) values (:2)")
          (VArr [VNum 10; VNum 20; VOutParam 5; VOutParam 5])
          "insert"
          (Some [VStr "id"])
          (Some [VOutParam 5; VOutParam 5])
          (VStr "select id from t where ROWID in (:1, :2)")
          None None VUndefined VUndefined.

Definition two_inserted : value :=
  VObj [("updateCount", VNum 2);
        ("returnParam", VStr "AAAR1"); ("returnParam1", VStr "AAAR2")].

Definition two_ids : value :=
  VArr [VObj [("id", VNum 7)]; VObj [("id", VNum 8)]].

Definition normalising (m : string) (columns : option (list value))
           (column : option string) (r : value) (count : value)
  : QueryDescriptor :=
  mkQuery (VStr "statement") (VArr []) m columns None VUndefined column None
          r count.

Definition named_objects : list (list (string * value)) :=
  [[("id", VNum 1); ("name", VStr "a")]; [("id", VNum 2); ("name", VStr "b")]].

Definition named_rows : value := VArr (List.map VObj named_objects).

Definition id_objects : list (list (string * value)) :=
  [[("id", VNum 7)]; [("id", VNum 8)]; [("id", VNum 9)]].

Definition id_rows : value := VArr (List.map VObj id_objects).

(** A custom transform that throws. *)
Definition throwing_transform (runner response : value) : JsError + value :=
  inl (Error "no rows expected").

(** Unfolds the promise chain of [_query] down to the driver calls. *)
Ltac run_chain :=
  unfold round_trips, then_, fetch_returning, finalize,
    connection_executeAsync, resolve, reject; simpl.

Ltac run_chain_in H :=
  unfold round_trips, then_, fetch_returning, finalize,
    connection_executeAsync, resolve, reject in H; simpl in H.

(** ** Connection lifecycle *)

(** [this.connectionSettings] as the client reads them. *)
Record ConnectionSettings : Type := mkSettings {
  database_name : value;
  prefetchRowCount : value
}.

Section Lifecycle.

Variable Session : Type.

(** [driver.connect(settings, callback)]: what the callback receives, an
    error or the driver's connection. *)
Variable connect : ConnectionSettings -> JsError + Session.

(** [connection.setPrefetchRowCount(n)]. *)
Variable setPrefetchRowCount : value -> Session -> Session.

(** Get a raw connection, called by the pool whenever a new connection
    needs to be added to the pool. *)
Definition acquireRawConnection (settings : ConnectionSettings)
  : Settled (Connection Session) :=
  match connect settings with
  | inl err => Rejected err
  | inr raw =>
      let raw :=
        if truthy (prefetchRowCount settings)
        then setPrefetchRowCount (prefetchRowCount settings) raw
        else raw in
      Fulfilled (mkConnection raw None [])
  end.

(** Return the database for the Oracle client. *)
Definition database (settings : ConnectionSettings) : value :=
  database_name settings.

End Lifecycle.

Arguments acquireRawConnection {Session} _ _ _.

(** ** More vocabulary *)

Definition is_boolean (v : value) : bool :=
  match v with VBool _ => true | _ => false end.

Definition is_buffer (v : value) : bool :=
  match v with VBuffer _ => true | _ => false end.

Definition is_helper (v : value) : bool :=
  match v with VReturningHelper _ => true | _ => false end.

(** A binding the translator rewrites, given the driver handle it has. *)
Definition translated (driver : option Driver) (v : value) : bool :=
  is_boolean v || is_buffer v
  || (is_helper v && match driver with Some _ => true | None => false end).

(** The error an event carries, if any. *)
Definition event_error (ev : StreamEvent) : option Reason :=
  match ev with
  | SinkEnd => None
  | SinkError err => Some err
  | QueryStreamError error => Some error
  end.

(** No event of the trace carries a fatal error. *)
Definition no_fatal (events : list StreamEvent) : Prop :=
  forall ev (err : JsError),
    In ev events -> event_error ev = Some (Err err) ->
    isConnectionError err = false.


(** A driver error object without a message. *)
Definition coded_error : Reason := Coded (VNum 12154).

(** The errors of the result stream in a trace, in order. *)
Definition queryStream_errors (events : list StreamEvent) : list Reason :=
  flat_map (fun ev => match ev with
                      | QueryStreamError error => [error]
                      | _ => []
                      end) events.

(** An insert that asks for its [id] but was compiled without output
    parameters. *)
Definition insert_without_outParams : QueryDescriptor :=
  mkQuery (VStr "insert into t (a) values (:1)") (VArr [VNum 10]) "insert"
          (Some [VStr "id"]) None
          (VStr "select id from t where ROWID = :1")
          None None VUndefined VUndefined.

(** The same insert with an empty list of output parameters. *)
Definition insert_with_no_slot : QueryDescriptor :=
  mkQuery (VStr "insert into t (a) values (:1)") (VArr [VNum 10]) "insert"
          (Some [VStr "id"]) (Some [])
          (VStr "select id from t where ROWID = :1")
          None None VUndefined VUndefined.

(** A driver whose [connect] always hands out session 0, and whose
    [setPrefetchRowCount] leaves the session as it is. *)
Definition connecting (settings : ConnectionSettings) : JsError + nat := inr 0.

Definition keeping_session (n : value) (raw : nat) : nat := raw.

Definition dual_settings : ConnectionSettings := mkSettings (VStr "XE") (VNum 100).

(** ** Placeholder rewriting: properties *)

Lemma segments_not_nil (sql : string) : segments sql <> [].
Proof.
  destruct sql as [|c rest]; simpl; [discriminate|].
  destruct (Ascii.eqb c question); [discriminate|].
  destruct (segments rest); discriminate.
Qed.

Lemma interleave_more (marker : nat -> string) (i : nat) (piece : string)
      (rest : list string) :
  rest <> [] ->
  interleave marker i (piece :: rest)
  = (piece ++ marker i ++ interleave marker (S i) rest)%string.
Proof.
  destruct rest; [congruence | reflexivity].
Qed.

Lemma interleave_String (marker : nat -> string) (i : nat) (c : ascii)
      (piece : string) (rest : list string) :
  interleave marker i (String c piece :: rest)
  = String c (interleave marker i (piece :: rest)).
Proof.
  destruct rest; reflexivity.
Qed.

Lemma replace_questions_interleave (sql : string) :
  forall k,
    replace_questions k sql
    = interleave positional_marker (S k) (segments sql).
Proof.
  induction sql as [|c rest IH]; intro k; simpl; [reflexivity|].
  destruct (Ascii.eqb c question).
  - rewrite interleave_more by apply segments_not_nil.
    rewrite IH. reflexivity.
  - rewrite IH.
    destruct (segments rest) as [|piece pieces] eqn:E.
    + exfalso. exact (segments_not_nil rest E).
    + rewrite interleave_String. reflexivity.
Qed.

Lemma segments_rebuild (sql : string) :
  forall i, interleave question_mark i (segments sql) = sql.
Proof.
  induction sql as [|c rest IH]; intro i; simpl; [reflexivity|].
  destruct (Ascii.eqb c question) eqn:Q.
  - apply Ascii.eqb_eq in Q. subst c.
    rewrite interleave_more by apply segments_not_nil.
    rewrite IH. reflexivity.
  - specialize (IH i).
    destruct (segments rest) as [|piece pieces] eqn:E.
    + exfalso. exact (segments_not_nil rest E).
    + rewrite interleave_String, IH. reflexivity.
Qed.

Lemma segments_clean (sql : string) :
  Forall (fun piece => occurrences piece = 0) (segments sql).
Proof.
  induction sql as [|c rest IH]; simpl.
  - constructor; [reflexivity | constructor].
  - destruct (Ascii.eqb c question) eqn:Q.
    + constructor; [reflexivity | exact IH].
    + destruct (segments rest) as [|piece pieces].
      * constructor; [simpl; rewrite Q; reflexivity | constructor].
      * inversion IH; subst.
        constructor; [simpl; rewrite Q; simpl; assumption | assumption].
Qed.

Lemma segments_length (sql : string) :
  List.length (segments sql) = S (occurrences sql).
Proof.
  induction sql as [|c rest IH]; simpl; [reflexivity|].
  destruct (Ascii.eqb c question); simpl.
  - now rewrite IH.
  - destruct (segments rest); simpl in *; lia.
Qed.

Lemma replace_questions_none (sql : string) :
  forall k, occurrences sql = 0 -> replace_questions k sql = sql.
Proof.
  induction sql as [|c rest IH]; intros k H; simpl in *; [reflexivity|].
  destruct (Ascii.eqb c question); [discriminate|].
  now rewrite IH.
Qed.

Lemma append_assoc (a b c : string) :
  ((a ++ b) ++ c = a ++ (b ++ c))%string.
Proof.
  induction a as [|x a IH]; simpl; [reflexivity | now rewrite IH].
Qed.

Lemma string_of_revapp (d acc : uint) :
  NilEmpty.string_of_uint (revapp d acc)
  = (NilEmpty.string_of_uint (rev d) ++ NilEmpty.string_of_uint acc)%string.
Proof.
  revert acc. unfold rev.
  induction d as [|d IH|d IH|d IH|d IH|d IH|d IH|d IH|d IH|d IH|d IH];
    intro acc; simpl; [reflexivity|..];
    rewrite IH; symmetry; rewrite IH; now rewrite append_assoc.
Qed.

Lemma to_lu_low_digit (q r : nat) :
  q <> 0 -> r < 10 ->
  DecimalNat.Unsigned.to_lu (10 * q + r)
  = low_digit r (DecimalNat.Unsigned.to_lu q).
Proof.
  intros Hq Hr. rewrite Nat.add_comm.
  do 10 (destruct r as [|r];
         [cbn [Nat.add DecimalNat.Unsigned.to_lu];
          rewrite (DecimalNat.Unsigned.to_lu_tenfold q Hq); reflexivity|]).
  lia.
Qed.

Lemma string_of_low_digit (r : nat) (d : uint) :
  NilEmpty.string_of_uint (rev (low_digit r d))
  = (NilEmpty.string_of_uint (rev d) ++ String (digit r) EmptyString)%string.
Proof.
  unfold rev.
  do 9 (destruct r as [|r]; [simpl; now rewrite string_of_revapp|]).
  simpl. now rewrite string_of_revapp.
Qed.

Lemma decimal_small (n : nat) :
  n < 10 -> decimal n = String (digit n) EmptyString.
Proof.
  intro H. do 10 (destruct n as [|n]; [reflexivity|]). lia.
Qed.

Lemma decimal_step (q r : nat) :
  q <> 0 -> r < 10 ->
  decimal (10 * q + r) = (decimal q ++ String (digit r) EmptyString)%string.
Proof.
  intros Hq Hr. unfold decimal.
  rewrite !DecimalNat.Unsigned.to_uint_alt, (to_lu_low_digit q r Hq Hr).
  apply string_of_low_digit.
Qed.

Lemma numeral_upto_decimal (fuel : nat) :
  forall n, n < fuel -> numeral_upto fuel n = decimal n.
Proof.
  induction fuel as [|fuel IH]; intros n H; [lia|].
  cbn [numeral_upto].
  destruct (n <? 10)%nat eqn:Small.
  - apply Nat.ltb_lt in Small. symmetry. now apply decimal_small.
  - apply Nat.ltb_ge in Small.
    assert (Hq : n / 10 <> 0).
    { intro E. apply Nat.div_small_iff in E; lia. }
    assert (Hr : n mod 10 < 10) by (apply Nat.mod_upper_bound; lia).
    assert (Hlt : n / 10 < fuel).
    { assert (n / 10 < n) by (apply Nat.div_lt; lia). lia. }
    rewrite (IH _ Hlt), <- (decimal_step _ _ Hq Hr).
    now rewrite <- Nat.div_mod_eq.
Qed.

Lemma decimal_is_the_numeral (n : nat) : decimal n = numeral n.
Proof.
  unfold numeral. symmetry. apply numeral_upto_decimal. lia.
Qed.

Lemma interleave_ext (f g : nat -> string) (pieces : list string) :
  (forall i, f i = g i) ->
  forall i, interleave f i pieces = interleave g i pieces.
Proof.
  intro H. induction pieces as [|piece rest IH]; intro i; [reflexivity|].
  cbn [interleave]. destruct rest; [reflexivity|].
  now rewrite H, IH.
Qed.

(** C3. Every SQL text is its question-mark-free pieces joined by question
    marks, one more piece than it has question marks; [positionBindings]
    returns the same pieces, in the same order, joined by [:1], [:2], ...
    (a colon and the decimal numeral of the position) counted left to
    right, whatever surrounds a question mark (quotes included); a text
    without question marks is returned as it is. *)
Theorem positionBindings_numbers_every_question (sql : string) :
  interleave question_mark 1 (segments sql) = sql
  /\ Forall (fun piece => occurrences piece = 0) (segments sql)
  /\ List.length (segments sql) = S (occurrences sql)
  /\ positionBindings sql = interleave numbered_marker 1 (segments sql)
  /\ (occurrences sql = 0 -> positionBindings sql = sql).
Proof.
  repeat split.
  - apply segments_rebuild.
  - apply segments_clean.
  - apply segments_length.
  - unfold positionBindings. rewrite replace_questions_interleave.
    apply interleave_ext. intro i.
    unfold positional_marker, numbered_marker.
    now rewrite decimal_is_the_numeral.
  - apply replace_questions_none.
Qed.

Example numerals_sample :
  List.map numeral [0; 7; 10; 42; 109; 1000]
  = ["0"; "7"; "10"; "42"; "109"; "1000"].
Proof. reflexivity. Qed.

Example numbered_markers_sample :
  interleave numbered_marker 1 ["a = "; " and b = "; " and c = "; ""]
  = "a = :1 and b = :2 and c = :3".
Proof. reflexivity. Qed.

Example positionBindings_sample :
  positionBindings "select * from t where a = ? and b = '?' and c = ?"
  = "select * from t where a = :1 and b = ':2' and c = :3".
Proof. reflexivity. Qed.

Example positionBindings_in_literal :
  segments "a = ? and b = '?'" = ["a = "; " and b = '"; "'"]
  /\ positionBindings "a = ? and b = '?'" = "a = :1 and b = ':2'".
Proof. split; reflexivity. Qed.

Example positionBindings_identity :
  positionBindings "select 1 from dual" = "select 1 from dual".
Proof. reflexivity. Qed.

Example positionBindings_two_digits :
  positionBindings "????????????" = ":1:2:3:4:5:6:7:8:9:10:11:12".
Proof. reflexivity. Qed.

(** ** Binding translation: properties *)

Lemma prepBinding_idempotent (bufferToString : list Byte.byte -> string)
      (driver : option Driver) (v : value) :
  prepBinding bufferToString driver (prepBinding bufferToString driver v)
  = prepBinding bufferToString driver v.
Proof.
  destruct v, driver; reflexivity.
Qed.

(** C7. Translation maps [true] to 1 and [false] to 0 at every position of
    a binding list, and translating a translated list changes nothing. *)
Theorem prepBindings_booleans_and_idempotence
        (bufferToString : list Byte.byte -> string) (driver : option Driver)
        (bindings : list value) :
  (forall i b,
      nth_error bindings i = Some (VBool b) ->
      nth_error (prepBindings bufferToString driver bindings) i
      = Some (VNum (if b then 1 else 0)))
  /\ prepBindings bufferToString driver
                  (prepBindings bufferToString driver bindings)
     = prepBindings bufferToString driver bindings.
Proof.
  split.
  - intros i b H. unfold prepBindings.
    rewrite nth_error_map, H. destruct driver; reflexivity.
  - unfold prepBindings. rewrite map_map.
    apply map_ext. intro v. apply prepBinding_idempotent.
Qed.

Example prepBindings_sample :
  prepBindings (fun _ => "X''") (Some (mkDriver 5))
               [VBool true; VNull; VBool false; VStr "a"; VReturningHelper "id"]
  = [VNum 1; VNull; VNum 0; VStr "a"; VOutParam 5].
Proof. reflexivity. Qed.

(** ** Error classification: properties *)

Lemma index_zero_iff_prefix (pattern text : string) :
  index_is_zero (indexOf text pattern) = true
  <-> String.prefix pattern text = true.
Proof.
  unfold indexOf.
  destruct text as [|b text']; cbn [String.index].
  - destruct pattern; simpl; split; intro H; try reflexivity; discriminate.
  - destruct (String.prefix pattern (String b text')).
    + split; reflexivity.
    + destruct (String.index 0 pattern text'); simpl; split; discriminate.
Qed.

Lemma prefix_iff_starts_with (pattern : string) :
  forall text, String.prefix pattern text = true <-> starts_with pattern text.
Proof.
  unfold starts_with.
  induction pattern as [|a pattern' IH]; intro text.
  - destruct text; (split; [intros _; eexists; reflexivity | reflexivity]).
  - destruct text as [|b text'].
    + split; [discriminate | intros [rest H]; discriminate].
    + change (String.prefix (String a pattern') (String b text'))
        with (if ascii_dec a b then String.prefix pattern' text' else false).
      destruct (ascii_dec a b) as [->|D].
      * rewrite IH. split; intros [rest H]; exists rest; simpl in *; congruence.
      * split; [discriminate | intros [rest H]; simpl in H; congruence].
Qed.

Lemma isConnectionError_iff_cataloged (err : JsError) :
  isConnectionError err = true <-> cataloged (message err).
Proof.
  unfold isConnectionError, cataloged.
  rewrite existsb_exists.
  split; intros [p [Hin H]]; exists p; split; trivial.
  - apply prefix_iff_starts_with, index_zero_iff_prefix, H.
  - apply index_zero_iff_prefix, prefix_iff_starts_with, H.
Qed.

Example end_of_file_is_fatal : isConnectionError end_of_file = true.
Proof. reflexivity. Qed.

Example unique_violated_is_not_fatal : isConnectionError unique_violated = false.
Proof. reflexivity. Qed.

(** A prefix found later in the message does not count. *)
Example prefix_must_be_at_offset_zero :
  isConnectionError (Error "Error: ORA-03113: end-of-file") = false.
Proof. reflexivity. Qed.

(** ** The executor: properties *)

Lemma get_property (base : value) (key : string) :
  nullish base = false -> get base key = inr (property key base).
Proof.
  destruct base; simpl; intro H; try discriminate; reflexivity.
Qed.

Lemma get_fails_on_nullish (base : value) (key : string) (err : JsError) :
  get base key = inl err ->
  nullish base = true
  /\ err = TypeError ("Cannot read property '" ++ key ++ "' of "
                      ++ describe base).
Proof.
  destruct base; simpl; intro H; try discriminate;
    inversion H; split; reflexivity.
Qed.

Lemma read_slots_values (response : value) (params : list value) :
  nullish response = false ->
  forall i,
    read_slots response i params
    = inr (List.map (fun j => property (returnParam j) response)
                    (seq i (List.length params))).
Proof.
  intro H. induction params as [|p rest IH]; intro i; simpl; [reflexivity|].
  rewrite (get_property _ _ H), IH. reflexivity.
Qed.

Section ExecutorProperties.

Variable Session : Type.
Variable executeAsync : Session -> value -> value -> Settled value * Session.

Lemma query_unfold (c : Connection Session) (o : QueryDescriptor) :
  truthy (sql o) = true ->
  _query executeAsync c o
  = match round_trips executeAsync o (mkWorld c o) with
    | (Fulfilled o', w') => (Returned (Fulfilled o'), w')
    | (Rejected err, w') =>
        (Returned (Rejected (rethrown err)),
         mkWorld (mark_if_fatal err (connection w')) (obj w'))
    end.
Proof.
  intro H.
  unfold _query, catch_, classify_and_rethrow, reject, rethrown, mark_if_fatal.
  rewrite H. simpl.
  destruct (round_trips executeAsync o (mkWorld c o)) as [[o'|err] [c' d]];
    [reflexivity|].
  destruct (classify err) as [thrown|[|]]; reflexivity.
Qed.

(** The round trips never touch the disposed marker: only the [catch]
    handler writes it. *)
Lemma round_trips_keep_marker (c : Connection Session) (o : QueryDescriptor) :
  __knex__disposed (connection (snd (round_trips executeAsync o (mkWorld c o))))
  = __knex__disposed c.
Proof.
  run_chain.
  destruct (executeAsync (session c) (sql o) (bindings o)) as [[r1|e1] s1];
    simpl; [|reflexivity].
  destruct (returning o); simpl.
  - destruct (outParams o); simpl; [|reflexivity].
    destruct (read_slots r1 0 l0); simpl; [reflexivity|].
    destruct (executeAsync s1 (returningSql o) (VArr l1)) as [[r2|e2] s2];
      simpl; [|reflexivity].
    destruct (get r2 "updateCount"); reflexivity.
  - destruct (get r1 "updateCount"); reflexivity.
Qed.

Lemma mark_if_fatal_marker (err : JsError) (c : Connection Session) :
  __knex__disposed (mark_if_fatal err c)
  = if isConnectionError err then Some (Err err) else __knex__disposed c.
Proof.
  unfold mark_if_fatal. simpl. destruct (isConnectionError err); reflexivity.
Qed.

Lemma mark_if_fatal_unreadable (err : Reason) (thrown : JsError)
      (c : Connection Session) :
  classify err = inl thrown -> mark_if_fatal err c = c.
Proof.
  unfold mark_if_fatal. now intros ->.
Qed.

Lemma mark_if_fatal_executed (err : Reason) (c : Connection Session) :
  executed (mark_if_fatal err c) = executed c.
Proof.
  unfold mark_if_fatal. destruct (classify err) as [thrown|[|]]; reflexivity.
Qed.

(** C5. A descriptor whose SQL text is empty makes [_query] throw the
    empty-query error at once: the connection (its session, its marker and
    its log of driver calls) and the descriptor are as they were. *)
Theorem empty_query_throws_before_any_round_trip
        (c : Connection Session) (o : QueryDescriptor) :
  sql o = VStr "" ->
  _query executeAsync c o = (Threw (Error "The query is empty"), mkWorld c o)
  /\ executed (connection (snd (_query executeAsync c o))) = executed c
  /\ session (connection (snd (_query executeAsync c o))) = session c.
Proof.
  intro H. unfold _query. rewrite H. simpl. repeat split.
Qed.

(** C2, amended. Whatever error with a string message the round trips of
    [_query] raise, it is fatal exactly when its message starts with a
    cataloged prefix; [_query] rejects with that very error; and the
    disposed marker then holds the error when it is fatal and is what it
    was before the call when not. *)
Theorem raised_errors_are_classified_and_resurfaced
        (c : Connection Session) (o : QueryDescriptor)
        (err : JsError) (w1 : World Session) :
  truthy (sql o) = true ->
  round_trips executeAsync o (mkWorld c o) = (Rejected err, w1) ->
  (isConnectionError err = true <-> cataloged (message err))
  /\ fst (_query executeAsync c o) = Returned (Rejected err)
  /\ __knex__disposed (connection (snd (_query executeAsync c o)))
     = if isConnectionError err then Some (Err err) else __knex__disposed c.
Proof.
  intros Hsql Hrun. split; [apply isConnectionError_iff_cataloged|].
  rewrite (query_unfold c o Hsql), Hrun. simpl. split; [reflexivity|].
  rewrite mark_if_fatal_marker.
  pose proof (round_trips_keep_marker c o) as K. rewrite Hrun in K.
  simpl in K. rewrite K. reflexivity.
Qed.

(** C4, amended. When the SQL is not empty, [returning] is absent and the
    driver's execute succeeds with a response that is not null or
    undefined, [_query] succeeds after that one driver call, with the
    descriptor's SQL and bindings: the response is the descriptor's
    [response] and its [updateCount] the descriptor's [rowsAffected]. *)
Theorem plain_query_keeps_the_first_response
        (c : Connection Session) (o : QueryDescriptor)
        (r : value) (s' : Session) :
  truthy (sql o) = true ->
  returning o = None ->
  executeAsync (session c) (sql o) (bindings o) = (Fulfilled r, s') ->
  nullish r = false ->
  fst (_query executeAsync c o)
  = Returned (Fulfilled (set_rowsAffected (property "updateCount" r)
                                          (set_response r o)))
  /\ executed (connection (snd (_query executeAsync c o)))
     = executed c ++ [(sql o, bindings o)]
  /\ session (connection (snd (_query executeAsync c o))) = s'
  /\ response (obj (snd (_query executeAsync c o))) = r
  /\ rowsAffected (obj (snd (_query executeAsync c o)))
     = property "updateCount" r.
Proof.
  intros Hsql Hret H1 N.
  rewrite (query_unfold c o Hsql). run_chain.
  rewrite H1. simpl. rewrite Hret. simpl.
  rewrite (get_property r "updateCount" N). simpl. repeat split.
Qed.

(** C1, amended. When [returning] is set, [outParams] is an array and the
    first execute succeeds with a response that is not null or undefined,
    [_query] makes exactly one more driver call: [returningSql] with the
    values of the response's slots [returnParam], [returnParam1],
    [returnParam2], ... (one per output parameter, in order) as bindings;
    and when that call succeeds its response is the descriptor's final
    [response]. *)
Theorem returning_takes_one_follow_up
        (c : Connection Session) (o : QueryDescriptor)
        (columns params : list value) (r1 : value) (s1 : Session) :
  truthy (sql o) = true ->
  returning o = Some columns ->
  outParams o = Some params ->
  executeAsync (session c) (sql o) (bindings o) = (Fulfilled r1, s1) ->
  nullish r1 = false ->
  executed (connection (snd (_query executeAsync c o)))
  = executed c ++ [(sql o, bindings o);
                   (returningSql o, VArr (slot_values returnParam r1 params))]
  /\ forall r2 s2,
      executeAsync s1 (returningSql o) (VArr (slot_values returnParam r1 params))
      = (Fulfilled r2, s2) ->
      response (obj (snd (_query executeAsync c o))) = r2.
Proof.
  intros Hsql Hret Hout H1 Hnn.
  rewrite (query_unfold c o Hsql).
  run_chain.
  rewrite H1. simpl. rewrite Hret, Hout. simpl.
  rewrite (read_slots_values r1 params Hnn 0).
  fold (slot_values returnParam r1 params).
  destruct (executeAsync s1 (returningSql o)
                         (VArr (slot_values returnParam r1 params)))
    as [[r2|e2] s2] eqn:H2; simpl.
  - destruct (get r2 "updateCount"); simpl;
      (split; [rewrite ?mark_if_fatal_executed; simpl;
               rewrite <- app_assoc; reflexivity
              | intros r2' s2' E; inversion E; reflexivity]).
  - split; [rewrite mark_if_fatal_executed; simpl;
            rewrite <- app_assoc; reflexivity
           | intros r2' s2' E; discriminate].
Qed.

(** C10, amended. A failed [_query] leaves [rowsAffected] as it was, and
    leaves the whole descriptor as it was unless it fails with the
    TypeError of reading [updateCount] from a final response that is null
    or undefined, in which case [response] holds that value; a first round
    trip or a follow-up that the driver rejects leaves the descriptor
    untouched. *)
Theorem failed_query_and_the_descriptor
        (c : Connection Session) (o : QueryDescriptor) :
  (failed (fst (_query executeAsync c o)) = true ->
   rowsAffected (obj (snd (_query executeAsync c o))) = rowsAffected o
   /\ (obj (snd (_query executeAsync c o)) = o
       \/ exists r,
            nullish r = true
            /\ obj (snd (_query executeAsync c o)) = set_response r o
            /\ fst (_query executeAsync c o)
               = Returned (Rejected (TypeError
                   ("Cannot read property 'updateCount' of " ++ describe r)))))
  /\ (forall err s1,
         executeAsync (session c) (sql o) (bindings o) = (Rejected err, s1) ->
         obj (snd (_query executeAsync c o)) = o)
  /\ (forall columns params r1 s1 rowIds err s2,
         returning o = Some columns ->
         outParams o = Some params ->
         executeAsync (session c) (sql o) (bindings o) = (Fulfilled r1, s1) ->
         read_slots r1 0 params = inr rowIds ->
         executeAsync s1 (returningSql o) (VArr rowIds) = (Rejected err, s2) ->
         obj (snd (_query executeAsync c o)) = o).
Proof.
  destruct (truthy (sql o)) eqn:Hsql.
  2:{ unfold _query. rewrite Hsql. simpl.
      repeat split; intros; try reflexivity. left. reflexivity. }
  rewrite (query_unfold c o Hsql).
  split; [|split].
  - run_chain.
    destruct (executeAsync (session c) (sql o) (bindings o)) as [[r1|e1] s1];
      simpl; [|intros _; split; [|left]; reflexivity].
    destruct (returning o) as [columns|]; simpl.
    + destruct (outParams o) as [params|]; simpl;
        [|intros _; split; [|left]; reflexivity].
      destruct (read_slots r1 0 params) as [e|rowIds]; simpl;
        [intros _; split; [|left]; reflexivity|].
      destruct (executeAsync s1 (returningSql o) (VArr rowIds))
        as [[r2|e2] s2]; simpl; [|intros _; split; [|left]; reflexivity].
      destruct (get r2 "updateCount") as [e|n] eqn:G; simpl;
        [|discriminate].
      intros _. split; [reflexivity|].
      right. exists r2.
      destruct (get_fails_on_nullish _ _ _ G) as [N ->].
      repeat split. exact N.
    + destruct (get r1 "updateCount") as [e|n] eqn:G; simpl; [|discriminate].
      intros _. split; [reflexivity|].
      right. exists r1.
      destruct (get_fails_on_nullish _ _ _ G) as [N ->].
      repeat split. exact N.
  - intros err s1 E1. run_chain. rewrite E1. reflexivity.
  - intros columns params r1 s1 rowIds err s2 Hret Hout E1 E2 E3.
    run_chain. rewrite E1. simpl. rewrite Hret, Hout. simpl.
    rewrite E2. simpl. rewrite E3. reflexivity.
Qed.

End ExecutorProperties.

(** ** The executor on sample sessions *)

Lemma empty_query_witness :
  _query (answering three_updated) (fresh 0) (plain_query "" [])
  = (Threw (Error "The query is empty"),
     mkWorld (fresh 0) (plain_query "" []))
  /\ executed (connection (snd (_query (answering three_updated) (fresh 0)
                                       (plain_query "" [])))) = []
  /\ session (connection (snd (_query (answering three_updated) (fresh 0)
                                      (plain_query "" [])))) = 0.
Proof.
  exact (empty_query_throws_before_any_round_trip
           nat (answering three_updated) (fresh 0) (plain_query "" []) eq_refl).
Defined.

Lemma fatal_error_witness :
  (isConnectionError end_of_file = true <-> cataloged (message end_of_file))
  /\ fst (_query (failing end_of_file) (fresh 0) select_one)
     = Returned (Rejected end_of_file)
  /\ __knex__disposed
       (connection (snd (_query (failing end_of_file) (fresh 0) select_one)))
     = Some (Err end_of_file).
Proof.
  exact (raised_errors_are_classified_and_resurfaced
           nat (failing end_of_file) (fresh 0) select_one end_of_file
           (mkWorld (mkConnection 1 None [(sql select_one, bindings select_one)])
                    select_one)
           eq_refl eq_refl).
Defined.

Example query_level_error_leaves_marker :
  _query (failing unique_violated) (fresh 0) select_one
  = (Returned (Rejected unique_violated),
     mkWorld (mkConnection 1 None [(sql select_one, bindings select_one)])
             select_one).
Proof. reflexivity. Qed.

Example follow_up_error_is_classified :
  fst (_query (failing_after_first two_inserted end_of_file) (fresh 0) insert_two)
  = Returned (Rejected end_of_file)
  /\ __knex__disposed
       (connection (snd (_query (failing_after_first two_inserted end_of_file)
                                (fresh 0) insert_two)))
     = Some (Err end_of_file).
Proof. split; reflexivity. Qed.

Lemma plain_query_witness :
  fst (_query (answering three_updated) (fresh 0) update_one)
  = Returned (Fulfilled updated_one)
  /\ executed (connection (snd (_query (answering three_updated) (fresh 0)
                                       update_one)))
     = [(sql update_one, bindings update_one)]
  /\ session (connection (snd (_query (answering three_updated) (fresh 0)
                                      update_one))) = 1
  /\ response (obj (snd (_query (answering three_updated) (fresh 0)
                                update_one))) = three_updated
  /\ rowsAffected (obj (snd (_query (answering three_updated) (fresh 0)
                                    update_one))) = VNum 3.
Proof.
  exact (plain_query_keeps_the_first_response
           nat (answering three_updated) (fresh 0) update_one three_updated 1
           eq_refl eq_refl eq_refl eq_refl).
Defined.

(** C4 as worded fails: the driver's execute succeeds with [null], no
    [returning] is asked for, and yet [rowsAffected] is never set: reading
    the update count throws and [_query] fails. *)
Lemma null_response_sets_no_rowsAffected :
  answering VNull 0 (sql select_one) (bindings select_one)
  = (Fulfilled VNull, 1)
  /\ returning select_one = None
  /\ fst (_query (answering VNull) (fresh 0) select_one)
     = Returned (Rejected
                   (TypeError "Cannot read property 'updateCount' of null"))
  /\ rowsAffected (obj (snd (_query (answering VNull) (fresh 0) select_one)))
     = rowsAffected select_one.
Proof.
  repeat split.
Qed.

(** C2 as worded fails: the driver rejects with an object that has no
    message, the classification throws on it, and [_query] rejects with
    that TypeError instead of the driver's error. *)
Lemma messageless_rejection_is_replaced :
  failing coded_error 0 (sql select_one) (bindings select_one)
  = (Rejected coded_error, 1)
  /\ fst (_query (failing coded_error) (fresh 0) select_one)
     = Returned (Rejected
                   (TypeError "Cannot read property 'indexOf' of undefined"))
  /\ fst (_query (failing coded_error) (fresh 0) select_one)
     <> Returned (Rejected coded_error).
Proof.
  split; [reflexivity|]. split; [reflexivity|].
  vm_compute. intro H. discriminate H.
Qed.

Example plain_query_sample :
  _query (answering three_updated) (fresh 0) update_one
  = (Returned (Fulfilled updated_one),
     mkWorld (mkConnection 1 None [(sql update_one, bindings update_one)])
             updated_one).
Proof. reflexivity. Qed.

Lemma returning_witness :
  executed (connection (snd (_query (answering_twice two_inserted two_ids)
                                    (fresh 0) insert_two)))
  = [(sql insert_two, bindings insert_two);
     (returningSql insert_two, VArr [VStr "AAAR1"; VStr "AAAR2"])]
  /\ forall r2 s2,
      answering_twice two_inserted two_ids 1 (returningSql insert_two)
                      (VArr [VStr "AAAR1"; VStr "AAAR2"])
      = (Fulfilled r2, s2) ->
      response (obj (snd (_query (answering_twice two_inserted two_ids)
                                 (fresh 0) insert_two))) = r2.
Proof.
  exact (returning_takes_one_follow_up
           nat (answering_twice two_inserted two_ids) (fresh 0) insert_two
           [VStr "id"] [VOutParam 5; VOutParam 5] two_inserted 1
           eq_refl eq_refl eq_refl eq_refl eq_refl).
Defined.

Example returning_keeps_second_response :
  fst (_query (answering_twice two_inserted two_ids) (fresh 0) insert_two)
  = Returned (Fulfilled (set_rowsAffected VUndefined
                                          (set_response two_ids insert_two))).
Proof. reflexivity. Qed.

(** C1 as worded fails: with two output parameters the follow-up is bound
    to the slots [returnParam] and [returnParam1]; read from the slots
    [returnParam] and [returnParam2] the second identifier would be
    [undefined]. *)
Lemma second_slot_is_returnParam1 :
  nth_error (executed (connection
                         (snd (_query (answering_twice two_inserted two_ids)
                                      (fresh 0) insert_two)))) 1
  = Some (returningSql insert_two, VArr [VStr "AAAR1"; VStr "AAAR2"])
  /\ slot_values slot_named_from_two two_inserted [VOutParam 5; VOutParam 5]
     = [VStr "AAAR1"; VUndefined]
  /\ VArr [VStr "AAAR1"; VStr "AAAR2"]
     <> VArr (slot_values slot_named_from_two two_inserted
                          [VOutParam 5; VOutParam 5]).
Proof.
  split; [reflexivity|]. split; [reflexivity|].
  vm_compute. intro H. discriminate H.
Qed.

(** C10 as worded fails: a driver that resolves with [null] makes [_query]
    fail on reading [updateCount], after [response] was assigned. *)
Lemma null_response_changes_descriptor :
  _query (answering VNull) (fresh 0) select_one
  = (Returned (Rejected
                 (TypeError "Cannot read property 'updateCount' of null")),
     mkWorld (mkConnection 1 None [(sql select_one, bindings select_one)])
             (set_response VNull select_one))
  /\ failed (fst (_query (answering VNull) (fresh 0) select_one)) = true
  /\ response select_one = VUndefined
  /\ response (obj (snd (_query (answering VNull) (fresh 0) select_one)))
     = VNull
  /\ response (obj (snd (_query (answering VNull) (fresh 0) select_one)))
     <> response select_one.
Proof.
  repeat split; try reflexivity.
  vm_compute. intro H. discriminate H.
Qed.

Example rejected_follow_up_keeps_descriptor :
  obj (snd (_query (failing_after_first two_inserted unique_violated)
                   (fresh 0) insert_two)) = insert_two.
Proof. reflexivity. Qed.

(** ** Streaming: properties *)

Section StreamingProperties.

Variable Session : Type.

Implicit Types (st : StreamState Session) (ev : StreamEvent).



Lemma settle_emitted st (s : Settled unit) :
  sink_emitted (settle Session s st) = sink_emitted st.
Proof.
  unfold settle. destruct (promise st); reflexivity.
Qed.

Lemma settle_connection st (s : Settled unit) :
  stream_connection (settle Session s st) = stream_connection st.
Proof.
  unfold settle. destruct (promise st); reflexivity.
Qed.

Lemma on_stream_error_emitted (err : Reason) st :
  sink_emitted (on_stream_error Session err st) = sink_emitted st.
Proof.
  unfold on_stream_error, rejecter.
  destruct (classify err); [reflexivity|]. now rewrite settle_emitted.
Qed.

Lemma on_stream_error_connection (err : Reason) st :
  stream_connection (on_stream_error Session err st)
  = mark_if_fatal err (stream_connection st).
Proof.
  unfold on_stream_error, rejecter, mark_if_fatal.
  destruct (classify err) as [thrown|[|]]; [reflexivity|..];
    now rewrite settle_connection.
Qed.





Lemma deliver_emitted st ev :
  sink_emitted (deliver st ev) = sink_emitted st ++ queryStream_errors [ev].
Proof.
  destruct ev; simpl.
  - now rewrite on_stream_error_emitted, app_nil_r.
  - unfold resolver. now rewrite settle_emitted, app_nil_r.
  - unfold on_queryStream_error, stream_emit_error, rejecter.
    rewrite on_stream_error_emitted. simpl. now rewrite settle_emitted.
Qed.

Lemma deliver_connection st ev :
  stream_connection (deliver st ev)
  = match event_error ev with
    | Some err => mark_if_fatal err (stream_connection st)
    | None => stream_connection st
    end.
Proof.
  destruct ev; simpl.
  - apply on_stream_error_connection.
  - unfold resolver. apply settle_connection.
  - unfold on_queryStream_error, stream_emit_error, rejecter.
    rewrite on_stream_error_connection. simpl. now rewrite settle_connection.
Qed.







End StreamingProperties.



(** An error of the result stream rejects before it is classified, so it
    settles the promise even without a message. *)
Example messageless_stream_error_rejects :
  after [QueryStreamError coded_error]
        (_stream (fresh 0) select_one VUndefined)
  = mkStream (Some (Rejected coded_error)) (fresh 0)
             (sql select_one, bindings select_one, VUndefined)
             [coded_error].
Proof. reflexivity. Qed.

(** A result stream that cannot be opened rejects the promise without
    marking the connection, fatal or not. *)
Example unopened_stream_is_not_classified :
  after [SinkEnd] (_stream_unopened end_of_file (fresh 0) select_one VUndefined)
  = mkStream (Some (Rejected end_of_file)) (fresh 0)
             (sql select_one, bindings select_one, VUndefined) [].
Proof. reflexivity. Qed.

Example stream_first_error_wins :
  after [QueryStreamError end_of_file; SinkError unique_violated; SinkEnd]
        (_stream (fresh 0) select_one VUndefined)
  = mkStream (Some (Rejected end_of_file))
             (mkConnection 0 (Some (Err end_of_file)) [])
             (sql select_one, bindings select_one, VUndefined)
             [Err end_of_file].
Proof. reflexivity. Qed.

Example stream_end_then_error :
  after [SinkEnd; SinkError end_of_file]
        (_stream (fresh 0) select_one VUndefined)
  = mkStream (Some (Fulfilled tt))
             (mkConnection 0 (Some (Err end_of_file)) [])
             (sql select_one, bindings select_one, VUndefined)
             [].
Proof. reflexivity. Qed.

(** ** Response normalisation: properties *)

Lemma one_of_cases (m : string) (cases : list string) :
  one_of m cases = true -> In m cases.
Proof.
  unfold one_of. rewrite existsb_exists.
  intros [x [Hin Heq]]. apply String.eqb_eq in Heq. now subst.
Qed.

Lemma write_method_is_not_read (m : string) :
  one_of m ["insert"; "del"; "update"; "counter"] = true ->
  one_of m ["select"; "pluck"; "first"] = false.
Proof.
  intro H. apply one_of_cases in H. simpl in H.
  destruct H as [<-|[<-|[<-|[<-|[]]]]]; reflexivity.
Qed.

Lemma map_over_rows (rows : list value) (f : value -> value) :
  lodash_map (VArr rows) f = List.map f rows.
Proof.
  reflexivity.
Qed.

Lemma flatten_values (rows : list (list (string * value))) :
  flatten (List.map values (List.map VObj rows))
  = flat_map (List.map snd) rows.
Proof.
  induction rows as [|row rest IH]; simpl; [reflexivity|].
  now rewrite IH.
Qed.

Lemma flat_single_column (column : string) (vs : list value) :
  flat_map (List.map snd) (List.map (fun v => [(column, v)]) vs) = vs.
Proof.
  induction vs as [|v rest IH]; simpl; [reflexivity|]. now rewrite IH.
Qed.




(** C8, amended. Without a custom transform, for [insert], [del],
    [update] and [counter]: a [returning] of more than one column, or
    starting with "*", returns the response as it is; a [returning] of one
    other column returns, for a response that is a sequence of object
    rows, every property value of every row, row after row, which for
    rows holding just that column is the column's values; no [returning]
    returns [rowsAffected]. *)
Theorem write_methods_normalise (o : QueryDescriptor) (runner : value) :
  output o = None ->
  one_of (method o) ["insert"; "del"; "update"; "counter"] = true ->
  (forall columns,
      returning o = Some columns ->
      (1 < List.length columns)%nat \/ nth_error columns 0 = Some (VStr "*") ->
      processResponse o runner = inr (response o))
  /\ (forall column rows,
         returning o = Some [VStr column] -> column <> "*" ->
         response o = VArr (List.map VObj rows) ->
         processResponse o runner = inr (all_values rows))
  /\ (forall column vs,
         returning o = Some [VStr column] -> column <> "*" ->
         response o = VArr (List.map (fun v => VObj [(column, v)]) vs) ->
         processResponse o runner = inr (VArr vs))
  /\ (returning o = None -> processResponse o runner = inr (rowsAffected o)).
Proof.
  intros Hout Hm. unfold processResponse.
  rewrite Hout, (write_method_is_not_read _ Hm), Hm.
  assert (Single : forall column rows,
             returning o = Some [VStr column] -> column <> "*" ->
             response o = VArr (List.map VObj rows) ->
             match returning o with
             | Some columns =>
                 if (1 <? List.length columns)%nat
                    || is_string "*" (nth 0 columns VUndefined)
                 then inr (response o)
                 else inr (VArr (flatten (lodash_map (response o) values)))
             | None => @inr JsError value (rowsAffected o)
             end = inr (all_values rows)).
  { intros column rows -> Hne ->.
    cbn -[flatten lodash_map all_values String.eqb].
    destruct (String.eqb column "*") eqn:E.
    - apply String.eqb_eq in E. contradiction.
    - rewrite map_over_rows, flatten_values. reflexivity. }
  repeat split.
  - intros columns -> [Hlen|Hstar].
    + apply Nat.ltb_lt in Hlen. rewrite Hlen. reflexivity.
    + destruct columns as [|first rest]; [discriminate|].
      simpl in Hstar. inversion Hstar; subst. simpl.
      now rewrite orb_true_r.
  - exact Single.
  - intros column vs Hret Hne Hresp.
    rewrite (Single column (List.map (fun v => [(column, v)]) vs) Hret Hne).
    + unfold all_values. now rewrite flat_single_column.
    + now rewrite Hresp, map_map.
  - intros ->. reflexivity.
Qed.

(** ** The normaliser on sample descriptors *)


Example select_returns_rows :
  processResponse (normalising "select" None None named_rows VUndefined) VNull
  = inr named_rows.
Proof. reflexivity. Qed.

Example pluck_returns_names :
  processResponse (normalising "pluck" None (Some "name") named_rows VUndefined)
                  VNull
  = inr (VArr [VStr "a"; VStr "b"]).
Proof. reflexivity. Qed.

Example first_returns_first_row :
  processResponse (normalising "first" None None named_rows VUndefined) VNull
  = inr (VObj [("id", VNum 1); ("name", VStr "a")]).
Proof. reflexivity. Qed.

Example first_of_nothing :
  processResponse (normalising "first" None None (VArr []) VUndefined) VNull
  = inr VUndefined.
Proof. reflexivity. Qed.

(** [map] walks an object with a [length] by index, not by its values. *)
Example pluck_over_array_like :
  processResponse
    (normalising "pluck" None (Some "id")
                 (VObj [("length", VNum 2); ("0", VObj [("id", VNum 4)])])
                 VUndefined) VNull
  = inr (VArr [VNum 4; VUndefined]).
Proof. reflexivity. Qed.

Lemma write_methods_witness :
  (forall columns,
      returning (normalising "insert" (Some [VStr "id"]) None id_rows VUndefined)
      = Some columns ->
      (1 < List.length columns)%nat \/ nth_error columns 0 = Some (VStr "*") ->
      processResponse
        (normalising "insert" (Some [VStr "id"]) None id_rows VUndefined) VNull
      = inr id_rows)
  /\ (forall column rows,
         Some [VStr "id"] = Some [VStr column] -> column <> "*" ->
         id_rows = VArr (List.map VObj rows) ->
         processResponse
           (normalising "insert" (Some [VStr "id"]) None id_rows VUndefined)
           VNull
         = inr (all_values rows))
  /\ (forall column vs,
         Some [VStr "id"] = Some [VStr column] -> column <> "*" ->
         id_rows = VArr (List.map (fun v => VObj [(column, v)]) vs) ->
         processResponse
           (normalising "insert" (Some [VStr "id"]) None id_rows VUndefined)
           VNull
         = inr (VArr vs))
  /\ (Some [VStr "id"] = None ->
      processResponse
        (normalising "insert" (Some [VStr "id"]) None id_rows VUndefined) VNull
      = inr VUndefined).
Proof.
  exact (write_methods_normalise
           (normalising "insert" (Some [VStr "id"]) None id_rows VUndefined)
           VNull eq_refl eq_refl).
Defined.

Example insert_returning_id :
  processResponse
    (normalising "insert" (Some [VStr "id"]) None id_rows VUndefined) VNull
  = inr (VArr [VNum 7; VNum 8; VNum 9]).
Proof. reflexivity. Qed.

Example insert_returning_star :
  processResponse
    (normalising "insert" (Some [VStr "*"]) None named_rows VUndefined) VNull
  = inr named_rows.
Proof. reflexivity. Qed.

Example update_returning_two_columns :
  processResponse
    (normalising "update" (Some [VStr "id"; VStr "name"]) None named_rows
                 VUndefined) VNull
  = inr named_rows.
Proof. reflexivity. Qed.

Example del_without_returning :
  processResponse (normalising "del" None None three_updated (VNum 3)) VNull
  = inr (VNum 3).
Proof. reflexivity. Qed.

(** C8 as worded fails: the normaliser does not look the column up by name,
    so rows that hold more than the lone requested column contribute all
    their values. *)
Lemma lone_column_is_not_selected :
  processResponse
    (normalising "insert" (Some [VStr "id"]) None named_rows VUndefined) VNull
  = inr (VArr [VNum 1; VStr "a"; VNum 2; VStr "b"])
  /\ column_values "id" named_rows = VArr [VNum 1; VNum 2]
  /\ processResponse
       (normalising "insert" (Some [VStr "id"]) None named_rows VUndefined)
       VNull
     <> inr (column_values "id" named_rows).
Proof.
  split; [reflexivity|]. split; [reflexivity|].
  vm_compute. intro H. discriminate H.
Qed.

(** ** Further properties of the placeholder rewriter *)

Lemma occurrences_append (a b : string) :
  occurrences (a ++ b) = occurrences a + occurrences b.
Proof.
  induction a as [|x a IH]; simpl; [reflexivity|]. rewrite IH. lia.
Qed.

Lemma digits_hold_no_question (d : uint) :
  occurrences (NilEmpty.string_of_uint d) = 0.
Proof.
  induction d; simpl; trivial.
Qed.

Lemma marker_holds_no_question (i : nat) :
  occurrences (":" ++ decimal i) = 0.
Proof.
  unfold decimal. simpl. apply digits_hold_no_question.
Qed.

Lemma replace_questions_clean (sql : string) :
  forall k, occurrences (replace_questions k sql) = 0.
Proof.
  induction sql as [|c rest IH]; intro k; [reflexivity|].
  cbn [replace_questions].
  destruct (Ascii.eqb c question) eqn:Q.
  - cbv zeta. now rewrite occurrences_append, IH, marker_holds_no_question.
  - cbn [occurrences]. now rewrite Q, IH.
Qed.

(** X1. The rewritten text holds no question mark, so rewriting it again
    changes nothing. *)
Theorem positionBindings_leaves_no_question (sql : string) :
  occurrences (positionBindings sql) = 0
  /\ positionBindings (positionBindings sql) = positionBindings sql.
Proof.
  assert (H : occurrences (positionBindings sql) = 0)
    by apply replace_questions_clean.
  split; [exact H|].
  unfold positionBindings at 1. now apply replace_questions_none.
Qed.

Lemma replace_questions_append (a b : string) :
  forall k,
    replace_questions k (a ++ b)
    = (replace_questions k a ++ replace_questions (k + occurrences a) b)%string.
Proof.
  induction a as [|c a IH]; intro k.
  - simpl. now rewrite Nat.add_0_r.
  - cbn [append replace_questions occurrences].
    destruct (Ascii.eqb c question); cbv zeta.
    + rewrite IH. cbn [append]. rewrite ?append_assoc.
      now replace (S k + occurrences a) with (k + (1 + occurrences a)) by lia.
    + rewrite IH. cbn [append]. now rewrite Nat.add_0_l.
Qed.

(** X2. Rewriting a concatenation rewrites the first text and goes on
    numbering in the second from the number of question marks the first
    holds. *)
Theorem positionBindings_of_concatenation (a b : string) :
  positionBindings (a ++ b)
  = (positionBindings a ++ replace_questions (occurrences a) b)%string.
Proof.
  unfold positionBindings. now rewrite replace_questions_append.
Qed.

Example positionBindings_concatenation_sample :
  positionBindings ("a = ? and " ++ "b = ?")
  = (positionBindings "a = ? and " ++ "b = :2")%string.
Proof. reflexivity. Qed.

(** ** Slot and marker names *)

Lemma decimal_injective (i j : nat) : decimal i = decimal j -> i = j.
Proof.
  unfold decimal. intro H.
  apply (f_equal NilEmpty.uint_of_string) in H.
  rewrite !NilEmpty.usu in H. injection H as E.
  now apply DecimalNat.Unsigned.to_uint_inj.
Qed.

Lemma decimal_not_empty (i : nat) : decimal i <> "".
Proof.
  unfold decimal. intro H. pose proof H as H0.
  apply (f_equal NilEmpty.uint_of_string) in H.
  rewrite NilEmpty.usu in H. simpl in H. injection H as E.
  apply (f_equal Nat.of_uint) in E.
  rewrite DecimalNat.Unsigned.of_to in E. simpl in E. subst i.
  discriminate H0.
Qed.

Lemma returnParam_injective (i j : nat) :
  returnParam i = returnParam j -> i = j.
Proof.
  unfold returnParam. intro H. simpl in H.
  repeat (injection H as H).
  destruct i as [|i], j as [|j]; trivial.
  - symmetry in H. now apply decimal_not_empty in H.
  - now apply decimal_not_empty in H.
  - now apply decimal_injective.
Qed.

(** X3. Output parameters at different positions are read from different
    slots of the response: no two positions share a slot name. *)
Theorem returnParam_distinct (i j : nat) :
  i <> j -> returnParam i <> returnParam j.
Proof.
  intros Hne H. apply Hne. now apply returnParam_injective.
Qed.

Lemma returnParam_distinct_witness : returnParam 1 <> returnParam 11.
Proof.
  apply returnParam_distinct. discriminate.
Defined.

(** ** Further properties of the binding translator *)

Lemma prepBinding_translates (bufferToString : list Byte.byte -> string)
      (driver : option Driver) (v : value) :
  translated driver (prepBinding bufferToString driver v) = false.
Proof.
  destruct v, driver; reflexivity.
Qed.

Lemma prepBinding_fixes (bufferToString : list Byte.byte -> string)
      (driver : option Driver) (v : value) :
  prepBinding bufferToString driver v = v <-> translated driver v = false.
Proof.
  destruct v, driver; simpl; split; intro H;
    try reflexivity; try discriminate.
Qed.

(** X4. The translated list is as long as the given one and holds no
    boolean and no buffer; it holds a returning helper only when the
    client has no driver handle. *)
Theorem prepBindings_output_is_driver_ready
        (bufferToString : list Byte.byte -> string) (driver : option Driver)
        (bindings : list value) :
  List.length (prepBindings bufferToString driver bindings)
  = List.length bindings
  /\ forallb (fun v => negb (translated driver v))
             (prepBindings bufferToString driver bindings) = true.
Proof.
  unfold prepBindings. split; [apply length_map|].
  rewrite forallb_forall. intros v Hin.
  apply in_map_iff in Hin. destruct Hin as [u [<- _]].
  now rewrite prepBinding_translates.
Qed.

(** X5. The translator returns a list as it is exactly when the list
    holds nothing to translate: no boolean, no buffer and, with a driver
    handle, no returning helper. *)
Theorem prepBindings_fixed_points
        (bufferToString : list Byte.byte -> string) (driver : option Driver)
        (bindings : list value) :
  prepBindings bufferToString driver bindings = bindings
  <-> forallb (fun v => negb (translated driver v)) bindings = true.
Proof.
  unfold prepBindings.
  induction bindings as [|v rest IH]; cbn [List.map forallb];
    [split; reflexivity|].
  rewrite andb_true_iff, negb_true_iff.
  split.
  - intro H. injection H as H1 H2. split.
    + now apply (prepBinding_fixes bufferToString).
    + now apply IH.
  - intros [H1 H2].
    apply (prepBinding_fixes bufferToString) in H1. apply IH in H2.
    now rewrite H1, H2.
Qed.

Example prepBindings_helper_without_driver :
  prepBindings (fun _ => "X''") None [VReturningHelper "id"; VBool true]
  = [VReturningHelper "id"; VNum 1].
Proof. reflexivity. Qed.

(** ** Further properties of the error classifier *)

Lemma starts_with_trans (a b c : string) :
  starts_with a b -> starts_with b c -> starts_with a c.
Proof.
  intros [r1 ->] [r2 ->]. exists (r1 ++ r2)%string. apply append_assoc.
Qed.

Lemma catalog_is_vendor_coded (prefix : string) :
  In prefix connectionErrors ->
  starts_with "ORA-" prefix \/ starts_with "NJS-" prefix.
Proof.
  unfold connectionErrors, starts_with. simpl.
  intro H.
  repeat (destruct H as [<-|H];
          [first [left; eexists; reflexivity | right; eexists; reflexivity]|]).
  contradiction.
Qed.

(** X6. Only an error whose message begins with the vendor tag ORA- or
    NJS- can be fatal: every other error, whatever its name, is left
    query-level. *)
Theorem fatal_errors_carry_a_vendor_code (err : JsError) :
  isConnectionError err = true ->
  starts_with "ORA-" (message err) \/ starts_with "NJS-" (message err).
Proof.
  intro H. apply isConnectionError_iff_cataloged in H.
  destruct H as [prefix [Hin Hstart]].
  destruct (catalog_is_vendor_coded prefix Hin) as [V|V];
    [left | right]; exact (starts_with_trans _ _ _ V Hstart).
Qed.

Lemma fatal_errors_witness :
  starts_with "ORA-" (message end_of_file)
  \/ starts_with "NJS-" (message end_of_file).
Proof.
  exact (fatal_errors_carry_a_vendor_code end_of_file eq_refl).
Defined.

(** ** Further properties of the executor *)

Section MoreExecutorProperties.

Variable Session : Type.
Variable executeAsync : Session -> value -> value -> Settled value * Session.

(** X7. Whatever happens, [_query] only appends to the connection's log of
    driver calls, and at most two calls: none when the SQL is empty,
    otherwise the descriptor's statement first, and nothing after it when
    [returning] is absent. *)
Theorem query_makes_at_most_two_calls
        (c : Connection Session) (o : QueryDescriptor) :
  exists calls,
    executed (connection (snd (_query executeAsync c o)))
    = executed c ++ calls
    /\ List.length calls <= 2
    /\ (truthy (sql o) = false -> calls = [])
    /\ (truthy (sql o) = true ->
        exists rest, calls = (sql o, bindings o) :: rest)
    /\ (returning o = None -> List.length calls <= 1).
Proof.
  destruct (truthy (sql o)) eqn:Hsql.
  2:{ exists []. unfold _query. rewrite Hsql. simpl.
      rewrite app_nil_r. repeat split; auto; discriminate. }
  rewrite (query_unfold _ _ c o Hsql). run_chain.
  destruct (executeAsync (session c) (sql o) (bindings o)) as [[r1|e1] s1];
    simpl.
  2:{ exists [(sql o, bindings o)]. rewrite ?mark_if_fatal_executed. simpl.
      repeat split; auto; try discriminate. now exists []. }
  destruct (returning o) as [columns|]; simpl.
  - destruct (outParams o) as [params|]; simpl.
    2:{ exists [(sql o, bindings o)]. rewrite ?mark_if_fatal_executed. simpl.
        repeat split; auto; try discriminate. now exists []. }
    destruct (read_slots r1 0 params) as [e|rowIds]; simpl.
    1:{ exists [(sql o, bindings o)]. rewrite ?mark_if_fatal_executed. simpl.
        repeat split; auto; try discriminate. now exists []. }
    exists [(sql o, bindings o); (returningSql o, VArr rowIds)].
    destruct (executeAsync s1 (returningSql o) (VArr rowIds))
      as [[r2|e2] s2]; simpl;
      [destruct (get r2 "updateCount"); simpl|];
      rewrite ?mark_if_fatal_executed; simpl; rewrite <- ?app_assoc;
      (repeat split; auto; try discriminate; now eexists).
  - exists [(sql o, bindings o)].
    destruct (get r1 "updateCount"); simpl;
      rewrite ?mark_if_fatal_executed; simpl;
      (repeat split; auto; try discriminate; now exists []).
Qed.

(** X8. [_query] writes the disposed marker only to record a fatal error
    it is rejecting with: a successful query leaves the marker as it was,
    and a marker that is set is never cleared. *)
Theorem query_never_clears_the_marker
        (c : Connection Session) (o : QueryDescriptor) :
  (__knex__disposed (connection (snd (_query executeAsync c o)))
   = __knex__disposed c
   \/ exists err : JsError,
       fst (_query executeAsync c o) = Returned (Rejected err)
       /\ isConnectionError err = true
       /\ __knex__disposed (connection (snd (_query executeAsync c o)))
          = Some (Err err))
  /\ (failed (fst (_query executeAsync c o)) = false ->
      __knex__disposed (connection (snd (_query executeAsync c o)))
      = __knex__disposed c)
  /\ (__knex__disposed c <> None ->
      __knex__disposed (connection (snd (_query executeAsync c o))) <> None).
Proof.
  destruct (truthy (sql o)) eqn:Hsql.
  2:{ unfold _query. rewrite Hsql. simpl. repeat split; auto. }
  rewrite (query_unfold _ _ c o Hsql).
  pose proof (round_trips_keep_marker _ executeAsync c o) as K.
  destruct (round_trips executeAsync o (mkWorld c o)) as [[o'|err] w'];
    simpl in *.
  - repeat split; auto. now rewrite K.
  - destruct err as [err|code]; simpl.
    + rewrite mark_if_fatal_marker, K.
      destruct (isConnectionError err) eqn:F.
      * split; [right; exists err; auto|].
        split; [discriminate | intros _; discriminate].
      * split; [left; reflexivity|]. split; [discriminate | auto].
    + unfold mark_if_fatal. simpl. rewrite K.
      split; [left; reflexivity|]. split; [discriminate | auto].
Qed.

(** X9. [_query] never reads the disposed marker: on a connection already
    marked it runs the same round trips, with the same outcome, descriptor,
    session and log as on an unmarked one. *)
Theorem query_does_not_read_the_marker
        (s : Session) (log : list (value * value))
        (m1 m2 : option Reason) (o : QueryDescriptor) :
  fst (_query executeAsync (mkConnection s m1 log) o)
  = fst (_query executeAsync (mkConnection s m2 log) o)
  /\ obj (snd (_query executeAsync (mkConnection s m1 log) o))
     = obj (snd (_query executeAsync (mkConnection s m2 log) o))
  /\ session (connection (snd (_query executeAsync (mkConnection s m1 log) o)))
     = session (connection
                  (snd (_query executeAsync (mkConnection s m2 log) o)))
  /\ executed (connection (snd (_query executeAsync (mkConnection s m1 log) o)))
     = executed (connection
                   (snd (_query executeAsync (mkConnection s m2 log) o))).
Proof.
  destruct (truthy (sql o)) eqn:Hsql.
  2:{ unfold _query. rewrite Hsql. simpl. repeat split. }
  rewrite !(query_unfold _ _ _ o Hsql). run_chain.
  assert (M : forall err (a b : Connection Session),
             session a = session b -> executed a = executed b ->
             session (mark_if_fatal err a) = session (mark_if_fatal err b)
             /\ executed (mark_if_fatal err a)
                = executed (mark_if_fatal err b)).
  { intros err a b Hs He. unfold mark_if_fatal.
    destruct (classify err) as [thrown|[|]]; simpl; auto. }
  destruct (executeAsync s (sql o) (bindings o)) as [[r1|e1] s1]; simpl.
  2:{ repeat split; apply M; reflexivity. }
  destruct (returning o) as [columns|]; simpl.
  - destruct (outParams o) as [params|]; simpl;
      [|repeat split; apply M; reflexivity].
    destruct (read_slots r1 0 params) as [e|rowIds]; simpl;
      [repeat split; apply M; reflexivity|].
    destruct (executeAsync s1 (returningSql o) (VArr rowIds))
      as [[r2|e2] s2]; simpl;
      [destruct (get r2 "updateCount"); simpl|];
      repeat split; apply M; reflexivity.
  - destruct (get r1 "updateCount"); simpl;
      repeat split; apply M; reflexivity.
Qed.

(** X10. A query that succeeds hands back the descriptor it was given with
    two fields rewritten and nothing else: [response] holds a response that
    is not null or undefined and [rowsAffected] that response's
    [updateCount]; the connection's marker is as before. *)
Theorem fulfilled_query_rewrites_two_fields
        (c : Connection Session) (o o' : QueryDescriptor) (w' : World Session) :
  _query executeAsync c o = (Returned (Fulfilled o'), w') ->
  obj w' = o'
  /\ (exists r,
         nullish r = false
         /\ o' = set_rowsAffected (property "updateCount" r) (set_response r o))
  /\ __knex__disposed (connection w') = __knex__disposed c.
Proof.
  intro Hq.
  destruct (truthy (sql o)) eqn:Hsql.
  2:{ unfold _query in Hq. rewrite Hsql in Hq. simpl in Hq. discriminate. }
  rewrite (query_unfold _ _ c o Hsql) in Hq. run_chain_in Hq.
  assert (G : forall r n, get r "updateCount" = inr n ->
                          nullish r = false /\ n = property "updateCount" r).
  { intros r n H. destruct r; simpl in *; try discriminate;
      inversion H; split; reflexivity. }
  destruct (executeAsync (session c) (sql o) (bindings o)) as [[r1|e1] s1];
    simpl in Hq; [|discriminate].
  destruct (returning o) as [columns|]; simpl in Hq.
  - destruct (outParams o) as [params|]; simpl in Hq; [|discriminate].
    destruct (read_slots r1 0 params) as [e|rowIds]; simpl in Hq;
      [discriminate|].
    destruct (executeAsync s1 (returningSql o) (VArr rowIds))
      as [[r2|e2] s2]; simpl in Hq; [|discriminate].
    destruct (get r2 "updateCount") as [e|n] eqn:E; simpl in Hq;
      [discriminate|].
    inversion Hq; subst. destruct (G _ _ E) as [N ->].
    repeat split. exists r2. now split.
  - destruct (get r1 "updateCount") as [e|n] eqn:E; simpl in Hq;
      [discriminate|].
    inversion Hq; subst. destruct (G _ _ E) as [N ->].
    repeat split. exists r1. now split.
Qed.

(** X11. On the RETURNING path the update count of the first response is
    dropped: [rowsAffected] is the [updateCount] of the follow-up's
    response, which is [undefined] when the follow-up answers with an
    array of rows. *)
Theorem returning_takes_rowsAffected_from_follow_up
        (c : Connection Session) (o : QueryDescriptor)
        (columns params : list value) (r1 r2 : value) (s1 s2 : Session) :
  truthy (sql o) = true ->
  returning o = Some columns ->
  outParams o = Some params ->
  executeAsync (session c) (sql o) (bindings o) = (Fulfilled r1, s1) ->
  nullish r1 = false ->
  executeAsync s1 (returningSql o) (VArr (slot_values returnParam r1 params))
  = (Fulfilled r2, s2) ->
  nullish r2 = false ->
  fst (_query executeAsync c o)
  = Returned (Fulfilled (set_rowsAffected (property "updateCount" r2)
                                          (set_response r2 o)))
  /\ session (connection (snd (_query executeAsync c o))) = s2
  /\ (forall rows,
         r2 = VArr rows ->
         rowsAffected (obj (snd (_query executeAsync c o))) = VUndefined).
Proof.
  intros Hsql Hret Hout H1 N1 H2 N2.
  rewrite (query_unfold _ _ c o Hsql). run_chain.
  rewrite H1. simpl. rewrite Hret, Hout. simpl.
  rewrite (read_slots_values r1 params N1 0).
  fold (slot_values returnParam r1 params). rewrite H2. simpl.
  rewrite (get_property r2 "updateCount" N2). simpl.
  repeat split. intros rows ->. reflexivity.
Qed.

(** X12. When [returning] is set but the row identifiers cannot be read,
    because [outParams] is missing or because the first response is null
    or undefined while an output parameter is expected, [_query] fails
    without a follow-up: one driver call in all, descriptor untouched. *)
Theorem unreadable_slots_stop_the_follow_up
        (c : Connection Session) (o : QueryDescriptor)
        (columns : list value) (r1 : value) (s1 : Session) :
  truthy (sql o) = true ->
  returning o = Some columns ->
  executeAsync (session c) (sql o) (bindings o) = (Fulfilled r1, s1) ->
  outParams o = None
  \/ (exists p rest, outParams o = Some (p :: rest) /\ nullish r1 = true) ->
  failed (fst (_query executeAsync c o)) = true
  /\ executed (connection (snd (_query executeAsync c o)))
     = executed c ++ [(sql o, bindings o)]
  /\ obj (snd (_query executeAsync c o)) = o.
Proof.
  intros Hsql Hret H1 Hbad.
  rewrite (query_unfold _ _ c o Hsql). run_chain.
  rewrite H1. simpl. rewrite Hret.
  destruct Hbad as [->|[p [rest [-> N]]]]; simpl.
  - rewrite ?mark_if_fatal_executed. repeat split.
  - destruct r1; simpl in N; try discriminate; simpl;
      rewrite ?mark_if_fatal_executed; repeat split.
Qed.

(** X13. With an empty [outParams] nothing is read from the first
    response, whatever it is, and the follow-up is issued with no
    bindings. *)
Theorem empty_outParams_follow_up_without_bindings
        (c : Connection Session) (o : QueryDescriptor)
        (columns : list value) (r1 : value) (s1 : Session) :
  truthy (sql o) = true ->
  returning o = Some columns ->
  outParams o = Some [] ->
  executeAsync (session c) (sql o) (bindings o) = (Fulfilled r1, s1) ->
  executed (connection (snd (_query executeAsync c o)))
  = executed c ++ [(sql o, bindings o); (returningSql o, VArr [])].
Proof.
  intros Hsql Hret Hout H1.
  rewrite (query_unfold _ _ c o Hsql). run_chain.
  rewrite H1. simpl. rewrite Hret, Hout. simpl.
  destruct (executeAsync s1 (returningSql o) (VArr [])) as [[r2|e2] s2];
    simpl; [destruct (get r2 "updateCount"); simpl|];
    rewrite ?mark_if_fatal_executed; simpl; now rewrite <- app_assoc.
Qed.

End MoreExecutorProperties.

Lemma fulfilled_query_witness :
  obj (snd (_query (answering three_updated) (fresh 0) update_one))
  = updated_one
  /\ (exists r,
         nullish r = false
         /\ updated_one
            = set_rowsAffected (property "updateCount" r)
                               (set_response r update_one))
  /\ __knex__disposed
       (connection (snd (_query (answering three_updated) (fresh 0)
                                update_one)))
     = __knex__disposed (fresh 0).
Proof.
  exact (fulfilled_query_rewrites_two_fields
           nat (answering three_updated) (fresh 0) update_one updated_one
           (snd (_query (answering three_updated) (fresh 0) update_one))
           eq_refl).
Defined.

Lemma rowsAffected_from_follow_up_witness :
  fst (_query (answering_twice two_inserted two_ids) (fresh 0) insert_two)
  = Returned (Fulfilled (set_rowsAffected (property "updateCount" two_ids)
                                          (set_response two_ids insert_two)))
  /\ session (connection (snd (_query (answering_twice two_inserted two_ids)
                                      (fresh 0) insert_two))) = 2
  /\ (forall rows,
         two_ids = VArr rows ->
         rowsAffected (obj (snd (_query (answering_twice two_inserted two_ids)
                                        (fresh 0) insert_two)))
         = VUndefined).
Proof.
  exact (returning_takes_rowsAffected_from_follow_up
           nat (answering_twice two_inserted two_ids) (fresh 0) insert_two
           [VStr "id"] [VOutParam 5; VOutParam 5] two_inserted two_ids 1 2
           eq_refl eq_refl eq_refl eq_refl eq_refl eq_refl eq_refl).
Defined.

Lemma unreadable_slots_witness :
  failed (fst (_query (answering two_inserted) (fresh 0)
                      insert_without_outParams)) = true
  /\ executed (connection (snd (_query (answering two_inserted) (fresh 0)
                                       insert_without_outParams)))
     = executed (fresh 0)
       ++ [(sql insert_without_outParams, bindings insert_without_outParams)]
  /\ obj (snd (_query (answering two_inserted) (fresh 0)
                      insert_without_outParams))
     = insert_without_outParams.
Proof.
  exact (unreadable_slots_stop_the_follow_up
           nat (answering two_inserted) (fresh 0) insert_without_outParams
           [VStr "id"] two_inserted 1 eq_refl eq_refl eq_refl
           (or_introl eq_refl)).
Defined.

Example null_first_response_stops_the_follow_up :
  _query (answering VNull) (fresh 0) insert_two
  = (Returned (Rejected
                 (TypeError "Cannot read property 'returnParam' of null")),
     mkWorld (mkConnection 1 None [(sql insert_two, bindings insert_two)])
             insert_two).
Proof. reflexivity. Qed.

Lemma empty_outParams_witness :
  executed (connection (snd (_query (answering VNull) (fresh 0)
                                    insert_with_no_slot)))
  = executed (fresh 0)
    ++ [(sql insert_with_no_slot, bindings insert_with_no_slot);
        (returningSql insert_with_no_slot, VArr [])].
Proof.
  exact (empty_outParams_follow_up_without_bindings
           nat (answering VNull) (fresh 0) insert_with_no_slot
           [VStr "id"] VNull 1 eq_refl eq_refl eq_refl eq_refl).
Defined.

Example marked_connection_still_runs :
  _query (answering three_updated) (mkConnection 0 (Some (Err end_of_file)) [])
         update_one
  = (Returned (Fulfilled updated_one),
     mkWorld (mkConnection 1 (Some (Err end_of_file))
                           [(sql update_one, bindings update_one)])
             updated_one).
Proof. reflexivity. Qed.

(** ** Further properties of streaming *)

Section MoreStreamingProperties.

Variable Session : Type.

Implicit Types (st : StreamState Session) (ev : StreamEvent).

Lemma after_app (a b : list StreamEvent) st :
  after (a ++ b) st = after b (after a st).
Proof.
  unfold after. apply fold_left_app.
Qed.

Lemma after_no_fatal (events : list StreamEvent) :
  forall st,
    no_fatal events ->
    stream_connection (after events st) = stream_connection st.
Proof.
  induction events as [|ev rest IH]; intros st H; simpl; [reflexivity|].
  rewrite IH.
  - rewrite deliver_connection.
    destruct (event_error ev) as [[err|code]|] eqn:E; [| |reflexivity].
    + unfold mark_if_fatal. simpl.
      now rewrite (H ev err (or_introl eq_refl) E).
    + reflexivity.
  - intros ev' err' Hin. apply H. now right.
Qed.

Lemma after_emitted (events : list StreamEvent) :
  forall st,
    sink_emitted (after events st)
    = sink_emitted st ++ queryStream_errors events.
Proof.
  induction events as [|ev rest IH]; intro st; simpl.
  - now rewrite app_nil_r.
  - rewrite IH, deliver_emitted. simpl. rewrite app_nil_r.
    now rewrite <- app_assoc.
Qed.

(** X15. For the marker the last fatal error wins: a trace without a
    fatal error leaves the marker as it was, and otherwise the marker
    holds the fatal error that arrived last, be it from the sink or from
    the result stream, before or after the promise settled. *)
Theorem stream_marker_is_the_last_fatal_error
        (c : Connection Session) (o : QueryDescriptor) (options : value)
        (events : list StreamEvent) :
  (no_fatal events ->
   __knex__disposed (stream_connection (after events (_stream c o options)))
   = __knex__disposed c)
  /\ (forall before ev (err : JsError) later,
         events = before ++ ev :: later ->
         event_error ev = Some (Err err) ->
         isConnectionError err = true ->
         no_fatal later ->
         __knex__disposed
           (stream_connection (after events (_stream c o options)))
         = Some (Err err)).
Proof.
  split.
  - intro H. now rewrite after_no_fatal.
  - intros before ev err later -> E F H.
    rewrite after_app. simpl. rewrite (after_no_fatal later _ H).
    rewrite deliver_connection, E. unfold mark_if_fatal. simpl.
    now rewrite F.
Qed.

(** X16. On the sink the client emits the errors of the result stream,
    each once and in their order of arrival, and nothing else: an error
    of the sink itself is not emitted again. *)
Theorem stream_emits_exactly_the_result_stream_errors
        (c : Connection Session) (o : QueryDescriptor) (options : value)
        (events : list StreamEvent) :
  sink_emitted (after events (_stream c o options))
  = queryStream_errors events.
Proof.
  rewrite after_emitted.
  unfold _stream. reflexivity.
Qed.

End MoreStreamingProperties.

Example stream_fatal_error_after_end :
  __knex__disposed
    (stream_connection
       (after [SinkError unique_violated; SinkEnd;
               QueryStreamError end_of_file; SinkError unique_violated]
              (_stream (fresh 0) select_one VUndefined)))
  = Some (Err end_of_file).
Proof. reflexivity. Qed.

(** ** Further properties of response normalisation *)



Example first_of_undefined_throws :
  processResponse (normalising "first" None None VUndefined VUndefined) VNull
  = inl (TypeError "Cannot read property '0' of undefined").
Proof. reflexivity. Qed.

Example throwing_transform_throws :
  processResponse
    (mkQuery (VStr "statement") (VArr []) "select" None None VUndefined None
             (Some throwing_transform) named_rows VUndefined) VNull
  = inl (Error "no rows expected").
Proof. reflexivity. Qed.

(** X18. An empty [returning] list still counts as requested: for the
    writing methods and a response that is a sequence of object rows the
    result is then the flattened row values, not [rowsAffected]. *)
Theorem empty_returning_is_still_returning
        (o : QueryDescriptor) (runner : value)
        (rows : list (list (string * value))) :
  output o = None ->
  one_of (method o) ["insert"; "del"; "update"; "counter"] = true ->
  returning o = Some [] ->
  response o = VArr (List.map VObj rows) ->
  processResponse o runner = inr (all_values rows).
Proof.
  intros Hout Hm Hret Hresp. unfold processResponse.
  rewrite Hout, (write_method_is_not_read _ Hm), Hm, Hret, Hresp.
  cbn -[flatten lodash_map all_values].
  now rewrite map_over_rows, flatten_values.
Qed.

Lemma empty_returning_witness :
  processResponse (normalising "update" (Some []) None id_rows (VNum 3)) VNull
  = inr (VArr [VNum 7; VNum 8; VNum 9]).
Proof.
  exact (empty_returning_is_still_returning
           (normalising "update" (Some []) None id_rows (VNum 3)) VNull
           id_objects eq_refl eq_refl eq_refl eq_refl).
Defined.

(** ** The connection lifecycle *)

Lemma query_marker (Session : Type)
      (executeAsync : Session -> value -> value -> Settled value * Session)
      (c : Connection Session) (o : QueryDescriptor) :
  __knex__disposed (connection (snd (_query executeAsync c o)))
  = match fst (_query executeAsync c o) with
    | Returned (Rejected (Err err)) =>
        if isConnectionError err then Some (Err err) else __knex__disposed c
    | _ => __knex__disposed c
    end.
Proof.
  destruct (truthy (sql o)) eqn:Hsql.
  2:{ unfold _query. rewrite Hsql. reflexivity. }
  rewrite (query_unfold _ _ c o Hsql).
  pose proof (round_trips_keep_marker _ executeAsync c o) as K.
  destruct (round_trips executeAsync o (mkWorld c o)) as [[o'|err] w'];
    simpl in *; [exact K|].
  destruct err as [err|code].
  - change (rethrown (Err err)) with (Err err).
    now rewrite mark_if_fatal_marker, K.
  - unfold mark_if_fatal. simpl. exact K.
Qed.

(** X19. A connection handed out by [acquireRawConnection] is unmarked
    and has run nothing; after a first query on it the marker holds an
    error exactly when that query was rejected with this error and the
    error is fatal. *)
Theorem acquired_connection_is_marked_only_by_a_fatal_query
        (Session : Type)
        (connect : ConnectionSettings -> JsError + Session)
        (setPrefetchRowCount : value -> Session -> Session)
        (executeAsync : Session -> value -> value -> Settled value * Session)
        (settings : ConnectionSettings) (c : Connection Session)
        (o : QueryDescriptor) :
  acquireRawConnection connect setPrefetchRowCount settings = Fulfilled c ->
  __knex__disposed c = None
  /\ executed c = []
  /\ forall err : Reason,
      __knex__disposed (connection (snd (_query executeAsync c o))) = Some err
      <-> fst (_query executeAsync c o) = Returned (Rejected err)
          /\ classify err = inr true.
Proof.
  unfold acquireRawConnection. intro H.
  destruct (connect settings) as [e|raw]; [discriminate|].
  injection H as <-. simpl. repeat split.
  - rewrite query_marker in H. simpl in H.
    destruct (fst (_query executeAsync _ o)) as [e|[o'|[e|code]]];
      try discriminate.
    destruct (isConnectionError e); [|discriminate].
    now injection H as <-.
  - rewrite query_marker in H. simpl in H.
    destruct (fst (_query executeAsync _ o)) as [e|[o'|[e|code]]];
      try discriminate.
    destruct (isConnectionError e) eqn:F; [|discriminate].
    injection H as <-. simpl. now rewrite F.
  - intros [H F]. rewrite query_marker, H.
    destruct err as [e|code]; simpl in F; [|discriminate].
    injection F as ->. reflexivity.
Qed.

Lemma acquired_connection_witness :
  __knex__disposed (fresh 0) = None
  /\ executed (fresh 0) = []
  /\ forall err : Reason,
      __knex__disposed
        (connection (snd (_query (failing end_of_file) (fresh 0) select_one)))
      = Some err
      <-> fst (_query (failing end_of_file) (fresh 0) select_one)
          = Returned (Rejected err)
          /\ classify err = inr true.
Proof.
  exact (acquired_connection_is_marked_only_by_a_fatal_query
           nat connecting keeping_session (failing end_of_file)
           dual_settings (fresh 0) select_one eq_refl).
Defined.
